(** * linkytic: the Linky TIC serial reader (custom component [__init__.py])

    A shallow embedding of [AsyncSerialReader] and [InvalidChecksum]:
    Python [bytes] are lists of [byte], Python [int] is [Z], the [_values]
    dict is a [gmap] keyed by the decoded tag, exceptions are an explicit
    [result] type, and the mutation of [self] together with logging and
    transport calls is a small state / error / trace monad. *)

From Stdlib Require Import ZArith List Bool Lia.
From Stdlib.Strings Require Import Byte String.
From stdpp Require Import base option list gmap strings.
Import ListNotations.

Local Open Scope Z_scope.

(** ** Python values used by the reader *)

Definition bytes := list byte.

(** The integer a byte stands for when a [bytes] object is iterated. *)
Definition byte_val (b : byte) : Z := Z.of_N (Byte.to_N b).

(** [bytes.rstrip(chars)]: drop the trailing bytes that belong to [chars]. *)
Fixpoint rstrip (chars : bytes) (line : bytes) : bytes :=
  match line with
  | [] => []
  | b :: rest =>
      match rstrip chars rest with
      | [] => if existsb (Byte.eqb b) chars then [] else [b]
      | kept => b :: kept
      end
  end.

(** [bytes.split(sep)] for a one-byte separator: every occurrence of [sep]
    ends a field, so the result always has one field more than there are
    separators (an empty line gives one empty field). *)
Fixpoint split (sep : byte) (line : bytes) : list bytes :=
  match line with
  | [] => [[]]
  | b :: rest =>
      if Byte.eqb b sep then [] :: split sep rest
      else match split sep rest with
           | f :: fs => (b :: f) :: fs
           | [] => [[b]]
           end
  end.

(** A timestamp as stored in a payload: [None], a decoded [str], or the
    [bytes] object itself (see [parse_line]: a falsy timestamp is stored
    undecoded). *)
Inductive pyval :=
| PyNone
| PyStr (s : string)
| PyBytes (b : bytes).

(** ** Exceptions *)

Module InvalidChecksum.
Record t := mk {
  tag : string;
  timestamp : string;
  value : string;
  s1 : Z;
  s1_truncated : Z;
  computed : Z;
  expected : bytes
}.
End InvalidChecksum.

Inductive exn :=
| TypeError
| AttributeError
| UnicodeDecodeError
| SerialException
| KeyError
| InvalidChecksumError (ic : InvalidChecksum.t).

Inductive result (A : Type) :=
| Ok (a : A)
| Raise (e : exn).
Arguments Ok {A} a.
Arguments Raise {A} e.

#[global] Instance result_ret : MRet result := fun A a => Ok a.
#[global] Instance result_bind : MBind result := fun A B f m =>
  match m with
  | Ok a => f a
  | Raise e => Raise e
  end.

(** [b.decode("ascii")]: fails on any byte above 0x7F. *)
Definition is_ascii (b : byte) : bool := byte_val b <? 128.

Definition decode_ascii (b : bytes) : result string :=
  if forallb is_ascii b then Ok (string_of_list_byte b)
  else Raise UnicodeDecodeError.

(** [x.decode("ascii")] where [x] may be [None]: [None] has no [decode]. *)
Definition decode_ascii_opt (x : option bytes) : result string :=
  match x with
  | None => Raise AttributeError
  | Some b => decode_ascii b
  end.

(** [ord(c)] on a [bytes] object: defined on length one only. *)
Definition ord (c : bytes) : result Z :=
  match c with
  | [b] => Ok (byte_val b)
  | _ => Raise TypeError
  end.

(** [InvalidChecksum.__init__]: the three byte fields are decoded in the
    order tag, timestamp, value before the exception object exists (the
    message built by [msg] afterwards only formats integers and a
    one-byte [expected], which cannot fail). *)
Definition InvalidChecksum__init__
    (tag : bytes) (timestamp : option bytes) (value : bytes)
    (s1 s1_truncated computed : Z) (expected : bytes)
  : result InvalidChecksum.t :=
  tag' ← decode_ascii tag;
  timestamp' ← decode_ascii_opt timestamp;
  value' ← decode_ascii value;
  mret (InvalidChecksum.mk tag' timestamp' value' s1 s1_truncated computed expected).

(** ** Constants of [const.py] *)

(** Modelled from the spec: [const.py] is not part of the sources.  The
    spec (sections 4.2 and 6) fixes each field separator as one protocol
    byte, different per mode; [LINE_END] and [FRAME_END] are the byte sets
    handed to [rstrip].  Everything below is parametric in these values. *)
Record const := {
  MODE_STANDARD_FIELD_SEPARATOR : byte;
  MODE_HISTORIC_FIELD_SEPARATOR : byte;
  LINE_END : bytes;
  FRAME_END : bytes
}.

(** The values of the TIC protocol: horizontal tab in standard mode, space
    in historic mode, CR LF line end, and ETX / STX around frames. *)
Definition tic : const := {|
  MODE_STANDARD_FIELD_SEPARATOR := x09;
  MODE_HISTORIC_FIELD_SEPARATOR := x20;
  LINE_END := [x0d; x0a];
  FRAME_END := [x0d; x03; x02; x0a]
|}.

(** ** The reader object *)

Definition handle := nat.

Record payload := {
  value : string;
  timestamp : pyval
}.

Record AsyncSerialReader := {
  _port : string;
  _std_mode : bool;
  _reader : option handle;
  _writer : option handle;
  _first_line : bool;
  _values : gmap string payload
}.

(** [AsyncSerialReader.__init__] (the baud rate is only handed to the
    transport and is left out). *)
Definition AsyncSerialReader__init__ (port : string) (std_mode : bool)
  : AsyncSerialReader := {|
  _port := port;
  _std_mode := std_mode;
  _reader := None;
  _writer := None;
  _first_line := true;
  _values := ∅
|}.

(** Python truthiness of an attribute holding [None] or an object. *)
Definition truthy {A} (x : option A) : bool :=
  match x with Some _ => true | None => false end.

(** [self.is_connected] written without a call is the bound method object,
    and a method object is always truthy, whatever the method returns. *)
Definition bound_method_truthy {A B} (method : A -> B) : bool := true.

(** ** Effects: logging, the transport, and the mutation of [self] *)

Inductive level := DEBUG | INFO | WARNING | ERROR | EXCEPTION.

Inductive message :=
| MsgUnableToConnect (port : string)
| MsgExitingReadLoop
| MsgReadError (port : string)
| MsgResetState
| MsgClosing (event : string)
| MsgSkippingFirstLine (line : bytes)
| MsgLineToParse (line : bytes)
| MsgFieldCount (std_mode : bool) (n : nat) (line : bytes)
| MsgChecksumFailed (line : bytes) (ic : InvalidChecksum.t)
| MsgChecksumValid
| MsgReadValues (tag : string) (p : payload)
| MsgKeyError (tag : string).

Inductive action :=
| OpenSerialConnection (port : string)
| Readline (reader : handle)
| Sleep (seconds : Z)
| CloseWriter (writer : handle)
| Log (lvl : level) (m : message).

(** What a method call leaves behind: its result or the exception that
    escaped it, the object as mutated so far, and what it did on the way. *)
Record outcome (A : Type) := Outcome {
  res : result A;
  after : AsyncSerialReader;
  trace : list action
}.
Arguments Outcome {A} res after trace.
Arguments res {A} o.
Arguments after {A} o.
Arguments trace {A} o.

Definition M (A : Type) : Type := AsyncSerialReader -> outcome A.

#[global] Instance M_ret : MRet M := fun A a self => Outcome (Ok a) self [].
#[global] Instance M_bind : MBind M := fun A B f m self =>
  match m self with
  | Outcome (Ok a) self1 t1 =>
      match f a self1 with
      | Outcome r self2 t2 => Outcome r self2 (t1 ++ t2)
      end
  | Outcome (Raise e) self1 t1 => Outcome (Raise e) self1 t1
  end.

Definition get : M AsyncSerialReader := fun self => Outcome (Ok self) self [].
Definition modify (f : AsyncSerialReader -> AsyncSerialReader) : M unit :=
  fun self => Outcome (Ok tt) (f self) [].
Definition act (a : action) : M unit := fun self => Outcome (Ok tt) self [a].
Definition log (lvl : level) (m : message) : M unit := act (Log lvl m).
Definition lift {A} (r : result A) : M A := fun self => Outcome r self [].

(** Attribute assignments. *)
Definition set_transport (reader writer : option handle)
    (self : AsyncSerialReader) : AsyncSerialReader := {|
  _port := _port self; _std_mode := _std_mode self;
  _reader := reader; _writer := writer;
  _first_line := _first_line self; _values := _values self |}.

Definition set_writer (writer : option handle)
    (self : AsyncSerialReader) : AsyncSerialReader :=
  set_transport (_reader self) writer self.

Definition set_first_line (b : bool)
    (self : AsyncSerialReader) : AsyncSerialReader := {|
  _port := _port self; _std_mode := _std_mode self;
  _reader := _reader self; _writer := _writer self;
  _first_line := b; _values := _values self |}.

Definition set_values (values : gmap string payload)
    (self : AsyncSerialReader) : AsyncSerialReader := {|
  _port := _port self; _std_mode := _std_mode self;
  _reader := _reader self; _writer := _writer self;
  _first_line := _first_line self; _values := values |}.

(** What the outside world does during one turn of the read loop: how the
    transport answers, and whether the stop event is delivered while the
    loop is suspended in an [await] (the callback runs on the same event
    loop, so it can only run there). *)
Record env := {
  open_result : option (handle * handle);
  readline_result : option bytes;
  stop_while_waiting : option string;
  stop_while_sleeping : option string
}.

Inductive loop_exit := Continue | Break.

(** How far [read_serial] got on a finite script of the environment. *)
Inductive status := Running | Exited.

Section Reader.

Variable K : const.

(** The frame rebuilt by [validate_checksum]. *)
Definition frame (self : AsyncSerialReader)
    (tag : bytes) (timestamp : option bytes) (value : bytes) : bytes :=
  if _std_mode self then
    let sep := [MODE_STANDARD_FIELD_SEPARATOR K] in
    match timestamp with
    | None => tag ++ sep ++ value ++ sep
    | Some timestamp => tag ++ sep ++ timestamp ++ sep ++ value ++ sep
    end
  else tag ++ [MODE_HISTORIC_FIELD_SEPARATOR K] ++ value.

(** [s1 = 0; for b in frame: s1 += b]. *)
Definition byte_sum (frame : bytes) : Z :=
  fold_left (fun s1 b => s1 + byte_val b) frame 0.

Definition validate_checksum (self : AsyncSerialReader)
    (tag : bytes) (timestamp : option bytes) (value checksum : bytes)
  : result unit :=
  let s1 := byte_sum (frame self tag timestamp value) in
  let truncated := Z.land s1 0x3F in
  let computed_checksum := truncated + 0x20 in
  expected ← ord checksum;
  if negb (computed_checksum =? expected) then
    ic ← InvalidChecksum__init__ tag timestamp value s1 truncated
           computed_checksum checksum;
    Raise (InvalidChecksumError ic)
  else mret tt.

(** The field extraction of [parse_line] (the [if self._std_mode] block):
    [None] stands for the two branches that log the field count and
    return. *)
Definition extract_fields (std_mode : bool) (line : bytes)
  : option (bytes * option bytes * bytes * bytes) :=
  if std_mode then
    match split (MODE_STANDARD_FIELD_SEPARATOR K) line with
    | [tag; timestamp; field_value; checksum] =>
        Some (tag, Some timestamp, field_value, checksum)
    | [tag; field_value; checksum] => Some (tag, None, field_value, checksum)
    | _ => None
    end
  else
    match split (MODE_HISTORIC_FIELD_SEPARATOR K) line with
    | [tag; field_value; checksum] => Some (tag, None, field_value, checksum)
    | [tag; field_value; _; _] =>
        Some (tag, None, field_value, [MODE_HISTORIC_FIELD_SEPARATOR K])
    | _ => None
    end.

Definition field_separator (std_mode : bool) : byte :=
  if std_mode then MODE_STANDARD_FIELD_SEPARATOR K
  else MODE_HISTORIC_FIELD_SEPARATOR K.

(** [timestamp.decode("ascii") if timestamp else timestamp]. *)
Definition payload_timestamp (timestamp : option bytes) : result pyval :=
  match timestamp with
  | None => Ok PyNone
  | Some [] => Ok (PyBytes [])
  | Some ts => s ← decode_ascii ts; mret (PyStr s)
  end.

Definition parse_line (line : bytes) : M unit :=
  self ← get;
  if _first_line self then
    log DEBUG (MsgSkippingFirstLine line);;
    modify (set_first_line false)
  else
    log DEBUG (MsgLineToParse line);;
    let line := rstrip (FRAME_END K) (rstrip (LINE_END K) line) in
    match extract_fields (_std_mode self) line with
    | None =>
        log ERROR
          (MsgFieldCount (_std_mode self)
             (length (split (field_separator (_std_mode self)) line)) line)
    | Some (tag, timestamp, field_value, checksum) =>
        match validate_checksum self tag timestamp field_value checksum with
        | Raise (InvalidChecksumError ic) =>
            log ERROR (MsgChecksumFailed line ic)
        | Raise e => lift (Raise e)
        | Ok _ =>
            log DEBUG MsgChecksumValid;;
            value ← lift (decode_ascii field_value);
            timestamp ← lift (payload_timestamp timestamp);
            let payload := {| value := value; timestamp := timestamp |} in
            tag ← lift (decode_ascii tag);
            modify (fun self => set_values (<[tag := payload]> (_values self)) self);;
            log DEBUG (MsgReadValues tag payload)
        end
    end.

(** [stop_serial_read]: a callback, it runs to completion. *)
Definition stop_serial_read (event : string) : M unit :=
  self ← get;
  match _writer self with
  | Some writer =>
      log INFO (MsgClosing event);;
      act (CloseWriter writer);;
      modify (set_writer None)
  | None => mret tt
  end.

(** The stop event, when the environment delivers it during an [await]. *)
Definition deliver (event : option string) : M unit :=
  match event with
  | Some event => stop_serial_read event
  | None => mret tt
  end.

Definition _reset_state (e : env) : M unit :=
  log DEBUG MsgResetState;;
  modify (set_transport None None);;
  modify (set_first_line true);;
  modify (set_values ∅);;
  act (Sleep 5);;
  deliver (stop_while_sleeping e).

Definition open_serial (e : env) : M unit :=
  self ← get;
  act (OpenSerialConnection (_port self));;
  deliver (stop_while_waiting e);;
  match open_result e with
  | Some (reader, writer) => modify (set_transport (Some reader) (Some writer))
  | None =>
      log EXCEPTION (MsgUnableToConnect (_port self));;
      _reset_state e
  end.

(** One turn of the [while True] loop of [read_serial]. *)
Definition read_serial_turn (e : env) : M loop_exit :=
  self ← get;
  match _reader self with
  | None => open_serial e;; mret Continue
  | Some reader =>
      if negb (truthy (_writer self)) then
        log DEBUG MsgExitingReadLoop;; mret Break
      else
        act (Readline reader);;
        deliver (stop_while_waiting e);;
        match readline_result e with
        | None =>
            log EXCEPTION (MsgReadError (_port self));;
            _reset_state e;;
            mret Continue
        | Some line =>
            self ← get;
            (if truthy (_writer self) then parse_line line else mret tt);;
            mret Continue
        end
  end.

(** [read_serial] against a script of the environment, one entry per
    turn of the loop. *)
Fixpoint read_serial (script : list env) : M status :=
  match script with
  | [] => mret Running
  | e :: script =>
      c ← read_serial_turn e;
      match c with
      | Continue => read_serial script
      | Break => mret Exited
      end
  end.

Definition is_connected (self : AsyncSerialReader) : option handle :=
  match _reader self with
  | None => None
  | Some _ => _writer self
  end.

Definition get_values (tag : string) : M (pyval * pyval) :=
  self ← get;
  if negb (bound_method_truthy is_connected) then mret (PyNone, PyNone)
  else
    match _values self !! tag with
    | Some payload => mret (PyStr (value payload), timestamp payload)
    | None => log WARNING (MsgKeyError tag);; mret (PyNone, PyNone)
    end.

End Reader.

(** ** The session as a whole *)

(** The object after the assignments of [_reset_state]. *)
Definition reset (self : AsyncSerialReader) : AsyncSerialReader :=
  set_values ∅ (set_first_line true (set_transport None None self)).

(** Without a reader there is no writer and the skip flag is armed, and
    while the flag is armed the value table is empty. *)
Definition consistent (self : AsyncSerialReader) : Prop :=
  (_reader self = None -> _writer self = None)
  /\ (_reader self = None -> _first_line self = true)
  /\ (_first_line self = true -> _values self = ∅).

(** The spec's session states (sections 3 and 4.3), read off the
    attributes: no reader is Disconnected; a reader without writer is
    Stopped; an open transport is AwaitingFirstLine until the first line
    has been discarded and Connected afterwards. *)
Inductive SessionState := Disconnected | AwaitingFirstLine | Connected | Stopped.

Definition session_state (self : AsyncSerialReader) : SessionState :=
  match _reader self, _writer self with
  | None, _ => Disconnected
  | Some _, None => Stopped
  | Some _, Some _ => if _first_line self then AwaitingFirstLine else Connected
  end.

(** ** Counting and membership on bytes *)

(** How many times the byte [sep] occurs in [line]. *)
Definition count_sep (sep : byte) (line : bytes) : nat :=
  length (List.filter (fun b => Byte.eqb b sep) line).

(** [b] is one of the bytes [rstrip chars] removes. *)
Definition in_chars (chars : bytes) (b : byte) : bool :=
  existsb (Byte.eqb b) chars.

(** Reader and writer are both present or both absent. *)
Definition paired (self : AsyncSerialReader) : Prop :=
  truthy (_reader self) = truthy (_writer self).

(** An action other than the log of a skipped first line. *)
Definition not_a_skip (a : action) : Prop :=
  forall raw, a <> Log DEBUG (MsgSkippingFirstLine raw).

(** ** Sample sessions and lines

    Concrete data for the closed statements below, with the protocol's own
    constants [tic]. *)

Definition bytes_of (s : string) : bytes := list_byte_of_string s.

(** A session whose transport is open and whose first line is behind it. *)
Definition connected (std_mode : bool) : AsyncSerialReader :=
  set_first_line false
    (set_transport (Some 0%nat) (Some 1%nat)
       (AsyncSerialReader__init__ "/dev/ttyUSB0" std_mode)).

(** The environment of a turn in which [readline] returns [line] and
    nothing else happens. *)
Definition reads (line : bytes) : env := {|
  open_result := None;
  readline_result := Some line;
  stop_while_waiting := None;
  stop_while_sleeping := None
|}.

(** Standard mode, four fields, checksum [<] (0x3C) as computed. *)
Definition adsc_line : bytes :=
  bytes_of "ADSC" ++ [x09] ++ bytes_of "TS001" ++ [x09]
    ++ bytes_of "012345678901" ++ [x09] ++ bytes_of "<" ++ [x0d; x0a].

(** Standard mode, two fields only. *)
Definition short_line : bytes :=
  bytes_of "ADSC" ++ [x09] ++ bytes_of "012345678901" ++ [x0d; x0a].

(** Standard mode, three fields (no timestamp), checksum [;] (0x3B) as
    computed. *)
Definition adsc_plain_line : bytes :=
  bytes_of "ADSC" ++ [x09] ++ bytes_of "012345678901" ++ [x09]
    ++ bytes_of ";" ++ [x0d; x0a].

(** Historic mode, three fields, checksum [E] as computed. *)
Definition adco_line : bytes := bytes_of "ADCO 012345678901 E" ++ [x0d; x0a].

(** The same line with a wrong checksum byte. *)
Definition adco_bad_line : bytes :=
  bytes_of "ADCO 012345678901 X" ++ [x0d; x0a].

(** Historic mode, checksum equal to the separator: the split sees four
    fields, the last two empty. *)
Definition sep_checksum_line : bytes :=
  bytes_of "ADCO 01234567890L  " ++ [x0d; x0a].

(** Standard mode, four fields, the checksum byte [X] instead of [<]. *)
Definition adsc_bad_line : bytes :=
  bytes_of "ADSC" ++ [x09] ++ bytes_of "TS001" ++ [x09]
    ++ bytes_of "012345678901" ++ [x09] ++ bytes_of "X" ++ [x0d; x0a].

(** Standard mode, three fields, a checksum field of two bytes. *)
Definition long_checksum_line : bytes :=
  bytes_of "ADSC" ++ [x09] ++ bytes_of "012345678901" ++ [x09]
    ++ bytes_of "XY" ++ [x0d; x0a].

(** Standard mode, three fields, the value is the single byte 0xE9, and
    the checksum [6] is the one computed for it. *)
Definition non_ascii_line : bytes :=
  bytes_of "ADSC" ++ [x09; xe9; x09] ++ bytes_of "6" ++ [x0d; x0a].

(** * Properties *)

#[local] Ltac run := unfold mbind, M_bind, mret, M_ret, get, modify, log, act, lift; cbn.

#[local] Ltac same_list :=
  repeat first [rewrite <- app_assoc | progress cbn [app]]; reflexivity.

(** ** Bytes and the checksum arithmetic *)

(** The computed checksum always lies in 0x20 .. 0x5F. *)
Lemma computed_range (s1 : Z) : 0x20 <= Z.land s1 0x3F + 0x20 <= 0x5F.
Proof.
  assert (0 <= Z.land s1 0x3F < 64).
  { change 0x3F with (Z.ones 6). rewrite Z.land_ones by lia.
    apply Z.mod_pos_bound. reflexivity. }
  lia.
Qed.

Lemma byte_sum_from (l : bytes) (a : Z) :
  fold_left (fun s1 b => s1 + byte_val b) l a = a + byte_sum l.
Proof.
  unfold byte_sum. revert a. induction l as [|b l IH]; intros a;
    cbn [fold_left].
  - lia.
  - rewrite (IH (a + byte_val b)), (IH (0 + byte_val b)). lia.
Qed.

Lemma byte_sum_cons (b : byte) (l : bytes) :
  byte_sum (b :: l) = byte_val b + byte_sum l.
Proof. unfold byte_sum at 1. cbn [fold_left]. apply byte_sum_from. Qed.

(** The loop of [validate_checksum] adds up the value of every byte. *)
Lemma byte_sum_is_sum (l : bytes) :
  byte_sum l = fold_right (fun b acc => Z.of_N (Byte.to_N b) + acc) 0 l.
Proof.
  induction l as [|b l IH]; [reflexivity |].
  rewrite byte_sum_cons, IH. reflexivity.
Qed.

Lemma raise_after_init_not_ok (r : result InvalidChecksum.t) :
  (r ≫= fun ic => Raise (InvalidChecksumError ic)) <> (Ok tt : result unit).
Proof. destruct r; cbn; discriminate. Qed.

Section Facts.

Variable K : const.

Lemma validate_checksum_ok_iff self tag timestamp value checksum :
  validate_checksum K self tag timestamp value checksum = Ok tt <->
  exists c, checksum = [c] /\
    Z.land (byte_sum (frame K self tag timestamp value)) 0x3F + 0x20
    = byte_val c.
Proof.
  unfold validate_checksum.
  destruct checksum as [|c [|c' rest]]; cbn.
  - split; [discriminate | intros (c0 & Hc & _); discriminate].
  - destruct (Z.eqb_spec
      (Z.land (byte_sum (frame K self tag timestamp value)) 63 + 32)
      (byte_val c)) as [Heq | Hne]; cbn.
    + split; [eauto | reflexivity].
    + split.
      * intros Habs. exfalso. revert Habs. apply raise_after_init_not_ok.
      * intros (c0 & [= <-] & Heq). contradiction.
  - split; [discriminate | intros (c0 & Hc & _); discriminate].
Qed.

(** *** [parse_line], branch by branch *)

Lemma parse_line_first raw self :
  _first_line self = true ->
  parse_line K raw self
  = Outcome (Ok tt) (set_first_line false self)
      [Log DEBUG (MsgSkippingFirstLine raw)].
Proof.
  intros Hfl. unfold parse_line. run. rewrite Hfl. reflexivity.
Qed.

Lemma parse_line_field_count raw self :
  _first_line self = false ->
  let line := rstrip (FRAME_END K) (rstrip (LINE_END K) raw) in
  extract_fields K (_std_mode self) line = None ->
  parse_line K raw self
  = Outcome (Ok tt) self
      [Log DEBUG (MsgLineToParse raw);
       Log ERROR
         (MsgFieldCount (_std_mode self)
            (length (split (field_separator K (_std_mode self)) line))
            line)].
Proof.
  intros Hfl line Hx. unfold parse_line. run. rewrite Hfl. cbn.
  fold line. rewrite Hx. reflexivity.
Qed.

Lemma parse_line_invalid raw self tag timestamp value checksum e :
  _first_line self = false ->
  let line := rstrip (FRAME_END K) (rstrip (LINE_END K) raw) in
  extract_fields K (_std_mode self) line
  = Some (tag, timestamp, value, checksum) ->
  validate_checksum K self tag timestamp value checksum = Raise e ->
  parse_line K raw self
  = match e with
    | InvalidChecksumError ic =>
        Outcome (Ok tt) self
          [Log DEBUG (MsgLineToParse raw);
           Log ERROR (MsgChecksumFailed line ic)]
    | _ => Outcome (Raise e) self [Log DEBUG (MsgLineToParse raw)]
    end.
Proof.
  intros Hfl line Hx Hv. unfold parse_line. run. rewrite Hfl. cbn.
  fold line. rewrite Hx, Hv. destruct e; reflexivity.
Qed.

Lemma parse_line_valid raw self tag timestamp value checksum :
  _first_line self = false ->
  let line := rstrip (FRAME_END K) (rstrip (LINE_END K) raw) in
  extract_fields K (_std_mode self) line
  = Some (tag, timestamp, value, checksum) ->
  validate_checksum K self tag timestamp value checksum = Ok tt ->
  parse_line K raw self
  = let seen := [Log DEBUG (MsgLineToParse raw); Log DEBUG MsgChecksumValid] in
    match decode_ascii value with
    | Raise e => Outcome (Raise e) self seen
    | Ok value' =>
        match payload_timestamp timestamp with
        | Raise e => Outcome (Raise e) self seen
        | Ok timestamp' =>
            match decode_ascii tag with
            | Raise e => Outcome (Raise e) self seen
            | Ok tag' =>
                let p := {| value := value'; timestamp := timestamp' |} in
                Outcome (Ok tt)
                  (set_values (<[tag' := p]> (_values self)) self)
                  (seen ++ [Log DEBUG (MsgReadValues tag' p)])
            end
        end
    end.
Proof.
  intros Hfl line Hx Hv. unfold parse_line. run. rewrite Hfl. cbn.
  fold line. rewrite Hx, Hv.
  destruct (decode_ascii value); cbn; [|reflexivity].
  destruct (payload_timestamp timestamp); cbn; [|reflexivity].
  destruct (decode_ascii tag); reflexivity.
Qed.

End Facts.

(** ** Field extraction *)

Lemma extract_fields_standard_other (K : const) (line : bytes) :
  length (split (MODE_STANDARD_FIELD_SEPARATOR K) line) <> 4%nat ->
  length (split (MODE_STANDARD_FIELD_SEPARATOR K) line) <> 3%nat ->
  extract_fields K true line = None.
Proof.
  unfold extract_fields.
  destruct (split _ line) as [|f1 [|f2 [|f3 [|f4 [|f5 fs]]]]]; cbn;
    intros H4 H3; try reflexivity; congruence.
Qed.

Lemma extract_fields_historic_other (K : const) (line : bytes) :
  length (split (MODE_HISTORIC_FIELD_SEPARATOR K) line) <> 3%nat ->
  length (split (MODE_HISTORIC_FIELD_SEPARATOR K) line) <> 4%nat ->
  extract_fields K false line = None.
Proof.
  unfold extract_fields.
  destruct (split _ line) as [|f1 [|f2 [|f3 [|f4 [|f5 fs]]]]]; cbn;
    intros H3 H4; try reflexivity; congruence.
Qed.

Lemma extract_fields_historic_timestamp (K : const) (line : bytes)
    tag timestamp value checksum :
  extract_fields K false line = Some (tag, timestamp, value, checksum) ->
  timestamp = None.
Proof.
  unfold extract_fields.
  destruct (split _ line) as [|f1 [|f2 [|f3 [|f4 [|f5 fs]]]]];
    intros [= _ <- _ _] || discriminate; reflexivity.
Qed.

(** C1: for a line accepted by field extraction, the frame rebuilt by
    [validate_checksum] is tag, separator, timestamp, separator, value,
    separator in standard mode with a timestamp; tag, separator, value,
    separator in standard mode without one; and tag, separator, value in
    historic mode.  The [s1] that the code accumulates over it is the sum
    of the numeric values of all its bytes.  The line passes validation
    exactly when the checksum is one byte whose value is
    [(s1 & 0x3F) + 0x20]; this is also exactly when [parse_line] reports
    the checksum as valid. *)
Theorem validate_checksum_judgement (K : const) (self : AsyncSerialReader)
    (raw tag : bytes) (timestamp : option bytes) (value checksum : bytes) :
  _first_line self = false ->
  extract_fields K (_std_mode self)
    (rstrip (FRAME_END K) (rstrip (LINE_END K) raw))
  = Some (tag, timestamp, value, checksum) ->
  let std_sep := [MODE_STANDARD_FIELD_SEPARATOR K] in
  let hist_sep := [MODE_HISTORIC_FIELD_SEPARATOR K] in
  let rebuilt :=
    match _std_mode self, timestamp with
    | true, Some ts => tag ++ std_sep ++ ts ++ std_sep ++ value ++ std_sep
    | true, None => tag ++ std_sep ++ value ++ std_sep
    | false, _ => tag ++ hist_sep ++ value
    end in
  let s1 := fold_right (fun b acc => Z.of_N (Byte.to_N b) + acc) 0 rebuilt in
  let judged_valid :=
    exists c, checksum = [c] /\ Z.land s1 0x3F + 0x20 = Z.of_N (Byte.to_N c) in
  frame K self tag timestamp value = rebuilt /\
  byte_sum rebuilt = s1 /\
  (validate_checksum K self tag timestamp value checksum = Ok tt
   <-> judged_valid) /\
  (In (Log DEBUG MsgChecksumValid) (trace (parse_line K raw self))
   <-> judged_valid).
Proof.
  intros Hfl Hx std_sep hist_sep rebuilt s1 judged_valid.
  assert (Hframe : frame K self tag timestamp value = rebuilt).
  { unfold frame, rebuilt. destruct (_std_mode self), timestamp; reflexivity. }
  assert (Hsum : byte_sum rebuilt = s1) by apply byte_sum_is_sum.
  assert (Hiff : validate_checksum K self tag timestamp value checksum = Ok tt
                 <-> judged_valid).
  { unfold judged_valid. rewrite <- Hsum, <- Hframe.
    apply validate_checksum_ok_iff. }
  split; [exact Hframe | split; [exact Hsum | split; [exact Hiff |]]].
  rewrite <- Hiff.
  destruct (validate_checksum K self tag timestamp value checksum)
    as [[] | e] eqn:Hv.
  - rewrite (parse_line_valid K raw self _ _ _ _ Hfl Hx Hv). cbn.
    split; [reflexivity | intros _].
    destruct (decode_ascii value); cbn; [|tauto].
    destruct (payload_timestamp timestamp); cbn; [|tauto].
    destruct (decode_ascii tag); cbn; tauto.
  - rewrite (parse_line_invalid K raw self _ _ _ _ e Hfl Hx Hv).
    split; [|discriminate].
    destruct e; cbn; intros [Hin | Hin]; try discriminate;
      try contradiction; destruct Hin as [Hin | []]; discriminate.
Qed.


(** C2: standard mode.  The stripped line is split on the standard
    separator.  With four fields [parse_line] goes on with them as
    (tag, timestamp, value, checksum), with three fields as
    (tag, value, checksum) and no timestamp: it validates the checksum of
    exactly these fields and, when they pass and decode, stores the value
    and the timestamp under the tag.  With any other count it logs the
    field count as an error and returns with the object, and so the value
    table, unchanged. *)
Theorem standard_field_extraction (K : const) (self : AsyncSerialReader)
    (raw : bytes) :
  _std_mode self = true ->
  _first_line self = false ->
  let line := rstrip (FRAME_END K) (rstrip (LINE_END K) raw) in
  let fields := split (MODE_STANDARD_FIELD_SEPARATOR K) line in
  let seen := [Log DEBUG (MsgLineToParse raw); Log DEBUG MsgChecksumValid] in
  let goes_on_with :=
    fun (tag : bytes) (timestamp : option bytes) (value checksum : bytes) =>
      match validate_checksum K self tag timestamp value checksum with
      | Raise (InvalidChecksumError ic) =>
          Outcome (Ok tt) self
            [Log DEBUG (MsgLineToParse raw);
             Log ERROR (MsgChecksumFailed line ic)]
      | Raise e => Outcome (Raise e) self [Log DEBUG (MsgLineToParse raw)]
      | Ok _ =>
          match decode_ascii value with
          | Raise e => Outcome (Raise e) self seen
          | Ok value' =>
              match payload_timestamp timestamp with
              | Raise e => Outcome (Raise e) self seen
              | Ok timestamp' =>
                  match decode_ascii tag with
                  | Raise e => Outcome (Raise e) self seen
                  | Ok tag' =>
                      let p := {| value := value'; timestamp := timestamp' |} in
                      Outcome (Ok tt)
                        (set_values (<[tag' := p]> (_values self)) self)
                        (seen ++ [Log DEBUG (MsgReadValues tag' p)])
                  end
              end
          end
      end in
  (forall tag timestamp value checksum,
      fields = [tag; timestamp; value; checksum] ->
      extract_fields K (_std_mode self) line
      = Some (tag, Some timestamp, value, checksum)
      /\ parse_line K raw self = goes_on_with tag (Some timestamp) value checksum) /\
  (forall tag value checksum,
      fields = [tag; value; checksum] ->
      extract_fields K (_std_mode self) line
      = Some (tag, None, value, checksum)
      /\ parse_line K raw self = goes_on_with tag None value checksum) /\
  (length fields <> 4%nat -> length fields <> 3%nat ->
   parse_line K raw self
   = Outcome (Ok tt) self
       [Log DEBUG (MsgLineToParse raw);
        Log ERROR (MsgFieldCount true (length fields) line)]).
Proof.
  intros Hstd Hfl line fields seen goes_on_with.
  assert (Hgo : forall tag timestamp value checksum,
             extract_fields K (_std_mode self) line
             = Some (tag, timestamp, value, checksum) ->
             parse_line K raw self = goes_on_with tag timestamp value checksum).
  { intros tag timestamp value checksum Hx. unfold goes_on_with.
    destruct (validate_checksum K self tag timestamp value checksum)
      as [[] | e] eqn:Hv.
    - exact (parse_line_valid K raw self _ _ _ _ Hfl Hx Hv).
    - rewrite (parse_line_invalid K raw self _ _ _ _ e Hfl Hx Hv).
      destruct e; reflexivity. }
  split; [|split].
  - intros tag timestamp value checksum Hf.
    assert (Hx : extract_fields K (_std_mode self) line
                 = Some (tag, Some timestamp, value, checksum)).
    { rewrite Hstd. unfold extract_fields. fold line fields.
      rewrite Hf. reflexivity. }
    split; [exact Hx | exact (Hgo _ _ _ _ Hx)].
  - intros tag value checksum Hf.
    assert (Hx : extract_fields K (_std_mode self) line
                 = Some (tag, None, value, checksum)).
    { rewrite Hstd. unfold extract_fields. fold line fields.
      rewrite Hf. reflexivity. }
    split; [exact Hx | exact (Hgo _ _ _ _ Hx)].
  - intros H4 H3.
    pose proof (parse_line_field_count K raw self Hfl) as Hp.
    cbn zeta in Hp. fold line in Hp. rewrite Hstd in Hp.
    apply Hp. apply extract_fields_standard_other; assumption.
Qed.

(** C3: historic mode.  With three fields [parse_line] goes on with them
    as (tag, value, checksum); with four fields it goes on with the first
    two as (tag, value) and with the separator byte itself as checksum,
    whatever the two trailing fields hold: it validates exactly these
    and, when they pass and decode, stores the value under the tag.  The
    separator taken as checksum is a single byte that validation compares
    like any other.  Any other count is logged as a field-count error
    with the object unchanged.  The extraction never yields a timestamp
    and no payload stored by a historic-mode [parse_line] carries one. *)
Theorem historic_field_extraction (K : const) (self : AsyncSerialReader)
    (raw : bytes) :
  _std_mode self = false ->
  let sep := MODE_HISTORIC_FIELD_SEPARATOR K in
  let line := rstrip (FRAME_END K) (rstrip (LINE_END K) raw) in
  let fields := split sep line in
  let seen := [Log DEBUG (MsgLineToParse raw); Log DEBUG MsgChecksumValid] in
  let goes_on_with :=
    fun (tag value checksum : bytes) =>
      match validate_checksum K self tag None value checksum with
      | Raise (InvalidChecksumError ic) =>
          Outcome (Ok tt) self
            [Log DEBUG (MsgLineToParse raw);
             Log ERROR (MsgChecksumFailed line ic)]
      | Raise e => Outcome (Raise e) self [Log DEBUG (MsgLineToParse raw)]
      | Ok _ =>
          match decode_ascii value with
          | Raise e => Outcome (Raise e) self seen
          | Ok value' =>
              match decode_ascii tag with
              | Raise e => Outcome (Raise e) self seen
              | Ok tag' =>
                  let p := {| value := value'; timestamp := PyNone |} in
                  Outcome (Ok tt)
                    (set_values (<[tag' := p]> (_values self)) self)
                    (seen ++ [Log DEBUG (MsgReadValues tag' p)])
              end
          end
      end in
  (forall tag value checksum,
      fields = [tag; value; checksum] ->
      extract_fields K (_std_mode self) line
      = Some (tag, None, value, checksum)
      /\ (_first_line self = false ->
          parse_line K raw self = goes_on_with tag value checksum)) /\
  (forall tag value f3 f4,
      fields = [tag; value; f3; f4] ->
      extract_fields K (_std_mode self) line = Some (tag, None, value, [sep]) /\
      (validate_checksum K self tag None value [sep] = Ok tt <->
       Z.land (byte_sum (tag ++ [sep] ++ value)) 0x3F + 0x20 = byte_val sep) /\
      (_first_line self = false ->
       parse_line K raw self = goes_on_with tag value [sep])) /\
  (length fields <> 3%nat -> length fields <> 4%nat ->
   _first_line self = false ->
   parse_line K raw self
   = Outcome (Ok tt) self
       [Log DEBUG (MsgLineToParse raw);
        Log ERROR (MsgFieldCount false (length fields) line)]) /\
  (forall tag timestamp value checksum,
      extract_fields K (_std_mode self) line
      = Some (tag, timestamp, value, checksum) ->
      timestamp = None) /\
  (forall tag p,
      _values (after (parse_line K raw self)) !! tag = Some p ->
      _values self !! tag = Some p \/ timestamp p = PyNone).
Proof.
  intros Hhist sep line fields seen goes_on_with.
  assert (Hgo : forall tag value checksum,
             _first_line self = false ->
             extract_fields K (_std_mode self) line
             = Some (tag, None, value, checksum) ->
             parse_line K raw self = goes_on_with tag value checksum).
  { intros tag value checksum Hfl Hx. unfold goes_on_with.
    destruct (validate_checksum K self tag None value checksum)
      as [[] | e] eqn:Hv.
    - rewrite (parse_line_valid K raw self _ _ _ _ Hfl Hx Hv). cbn zeta.
      destruct (decode_ascii value); reflexivity.
    - rewrite (parse_line_invalid K raw self _ _ _ _ e Hfl Hx Hv).
      destruct e; reflexivity. }
  rewrite Hhist in *.
  split; [|split; [|split; [|split]]].
  - intros tag value checksum Hf.
    assert (Hx : extract_fields K false line
                 = Some (tag, None, value, checksum)).
    { unfold extract_fields. fold sep line fields. rewrite Hf. reflexivity. }
    split; [exact Hx | intros Hfl; exact (Hgo _ _ _ Hfl Hx)].
  - intros tag value f3 f4 Hf.
    assert (Hx : extract_fields K false line = Some (tag, None, value, [sep])).
    { unfold extract_fields. fold sep line fields. rewrite Hf. reflexivity. }
    split; [exact Hx | split].
    + rewrite validate_checksum_ok_iff. unfold frame. rewrite Hhist.
      fold sep. split.
      * intros (c & [= <-] & Hc). exact Hc.
      * intros Hc. exists sep. split; [reflexivity | exact Hc].
    + intros Hfl. exact (Hgo _ _ _ Hfl Hx).
  - intros H3 H4 Hfl.
    pose proof (parse_line_field_count K raw self Hfl) as Hp.
    cbn zeta in Hp. fold line in Hp. rewrite Hhist in Hp.
    apply Hp. apply extract_fields_historic_other; assumption.
  - intros tag timestamp value checksum.
    apply extract_fields_historic_timestamp.
  - intros tag p.
    destruct (_first_line self) eqn:Hfl.
    { rewrite (parse_line_first K raw self Hfl). cbn. tauto. }
    destruct (extract_fields K (_std_mode self) line)
      as [[[[tag0 timestamp0] value0] checksum0]|] eqn:Hx.
    2:{ rewrite (parse_line_field_count K raw self Hfl Hx). cbn. tauto. }
    assert (timestamp0 = None) as ->.
    { rewrite Hhist in Hx.
      exact (extract_fields_historic_timestamp K line _ _ _ _ Hx). }
    destruct (validate_checksum K self tag0 None value0 checksum0)
      as [[] | e] eqn:Hv.
    2:{ rewrite (parse_line_invalid K raw self _ _ _ _ e Hfl Hx Hv).
        destruct e; cbn; tauto. }
    rewrite (parse_line_valid K raw self _ _ _ _ Hfl Hx Hv). cbn.
    destruct (decode_ascii value0) as [value'|]; cbn; [|tauto].
    destruct (decode_ascii tag0) as [tag'|]; cbn; [|tauto].
    destruct (decide (tag' = tag)) as [-> | Hne].
    + rewrite lookup_insert_eq. intros [= <-]. right. reflexivity.
    + rewrite lookup_insert_ne by exact Hne. tauto.
Qed.

(** ** The session: stop, reset, open and the read loop *)

Lemma stop_serial_read_cases (event : string) (self : AsyncSerialReader) :
  stop_serial_read event self
  = match _writer self with
    | Some writer =>
        Outcome (Ok tt) (set_writer None self)
          [Log INFO (MsgClosing event); CloseWriter writer]
    | None => Outcome (Ok tt) self []
    end.
Proof.
  unfold stop_serial_read. run. destruct (_writer self); reflexivity.
Qed.

Lemma deliver_no_writer (event : option string) (self : AsyncSerialReader) :
  _writer self = None -> deliver event self = Outcome (Ok tt) self [].
Proof.
  intros Hw. destruct event as [event|]; cbn; [|reflexivity].
  rewrite stop_serial_read_cases, Hw. reflexivity.
Qed.

Lemma reset_state_outcome (e : env) (self : AsyncSerialReader) :
  _reset_state e self
  = Outcome (Ok tt) (reset self) [Log DEBUG MsgResetState; Sleep 5].
Proof.
  unfold _reset_state. run.
  rewrite deliver_no_writer by reflexivity. reflexivity.
Qed.

Lemma open_serial_outcome (e : env) (self : AsyncSerialReader) :
  _writer self = None ->
  open_serial e self
  = match open_result e with
    | Some (reader, writer) =>
        Outcome (Ok tt) (set_transport (Some reader) (Some writer) self)
          [OpenSerialConnection (_port self)]
    | None =>
        Outcome (Ok tt) (reset self)
          [OpenSerialConnection (_port self);
           Log EXCEPTION (MsgUnableToConnect (_port self));
           Log DEBUG MsgResetState; Sleep 5]
    end.
Proof.
  intros Hw. unfold open_serial. run.
  rewrite (deliver_no_writer _ _ Hw).
  destruct (open_result e) as [[reader writer]|]; [reflexivity |].
  run. rewrite reset_state_outcome. reflexivity.
Qed.

Section Loop.

Variable K : const.

Lemma turn_disconnected e self :
  _reader self = None -> _writer self = None ->
  read_serial_turn K e self
  = match open_result e with
    | Some (reader, writer) =>
        Outcome (Ok Continue)
          (set_transport (Some reader) (Some writer) self)
          [OpenSerialConnection (_port self)]
    | None =>
        Outcome (Ok Continue) (reset self)
          [OpenSerialConnection (_port self);
           Log EXCEPTION (MsgUnableToConnect (_port self));
           Log DEBUG MsgResetState; Sleep 5]
    end.
Proof.
  intros Hr Hw. unfold read_serial_turn. run. rewrite Hr.
  rewrite (open_serial_outcome e self Hw).
  destruct (open_result e) as [[reader writer]|]; reflexivity.
Qed.

Lemma turn_stopped e self reader :
  _reader self = Some reader -> _writer self = None ->
  read_serial_turn K e self
  = Outcome (Ok Break) self [Log DEBUG MsgExitingReadLoop].
Proof.
  intros Hr Hw. unfold read_serial_turn. run. rewrite Hr, Hw. reflexivity.
Qed.

Lemma turn_read_error e self reader writer :
  _reader self = Some reader -> _writer self = Some writer ->
  readline_result e = None ->
  read_serial_turn K e self
  = Outcome (Ok Continue) (reset self)
      (Readline reader
         :: match stop_while_waiting e with
            | Some event => [Log INFO (MsgClosing event); CloseWriter writer]
            | None => []
            end
         ++ [Log EXCEPTION (MsgReadError (_port self));
             Log DEBUG MsgResetState; Sleep 5]).
Proof.
  intros Hr Hw He. unfold read_serial_turn. run. rewrite Hr, Hw, He. cbn.
  destruct (stop_while_waiting e) as [event|]; cbn.
  - rewrite stop_serial_read_cases, Hw. run.
    rewrite reset_state_outcome. reflexivity.
  - run. rewrite reset_state_outcome. reflexivity.
Qed.

Lemma turn_line_after_stop e self reader writer event raw :
  _reader self = Some reader -> _writer self = Some writer ->
  readline_result e = Some raw -> stop_while_waiting e = Some event ->
  read_serial_turn K e self
  = Outcome (Ok Continue) (set_writer None self)
      [Readline reader; Log INFO (MsgClosing event); CloseWriter writer].
Proof.
  intros Hr Hw He Hs. unfold read_serial_turn. run.
  rewrite Hr, Hw, He, Hs. cbn.
  rewrite stop_serial_read_cases, Hw. reflexivity.
Qed.

Lemma turn_line e self reader writer raw :
  _reader self = Some reader -> _writer self = Some writer ->
  readline_result e = Some raw -> stop_while_waiting e = None ->
  read_serial_turn K e self
  = match parse_line K raw self with
    | Outcome (Ok _) self' t => Outcome (Ok Continue) self' (Readline reader :: t)
    | Outcome (Raise ex) self' t => Outcome (Raise ex) self' (Readline reader :: t)
    end.
Proof.
  intros Hr Hw He Hs. unfold read_serial_turn. run.
  rewrite Hr, Hw, He, Hs. cbn. rewrite Hw. cbn.
  destruct (parse_line K raw self) as [[[]|ex] self' t]; cbn;
    rewrite ?app_nil_r; reflexivity.
Qed.

Lemma read_serial_cons e script self :
  read_serial K (e :: script) self
  = match read_serial_turn K e self with
    | Outcome (Ok Continue) self1 t1 =>
        match read_serial K script self1 with
        | Outcome r self2 t2 => Outcome r self2 (t1 ++ t2)
        end
    | Outcome (Ok Break) self1 t1 => Outcome (Ok Exited) self1 t1
    | Outcome (Raise ex) self1 t1 => Outcome (Raise ex) self1 t1
    end.
Proof.
  cbn [read_serial]. run.
  destruct (read_serial_turn K e self) as [[[]|ex] self1 t1]; cbn;
    rewrite ?app_nil_r; reflexivity.
Qed.

End Loop.

(** ** What every reachable object satisfies *)

Lemma init_consistent (port : string) (std_mode : bool) :
  consistent (AsyncSerialReader__init__ port std_mode).
Proof. repeat split. Qed.

Lemma reset_consistent (self : AsyncSerialReader) : consistent (reset self).
Proof. repeat split. Qed.

(** [parse_line] only ever touches [_first_line] and [_values]: it clears
    the flag when it is set and leaves the table alone in that case. *)
Lemma parse_line_frame (K : const) (raw : bytes) (self : AsyncSerialReader) :
  let self' := after (parse_line K raw self) in
  _reader self' = _reader self
  /\ _writer self' = _writer self
  /\ _first_line self' = false
  /\ (_first_line self = true -> _values self' = _values self).
Proof.
  cbn zeta. destruct (_first_line self) eqn:Hfl.
  { rewrite (parse_line_first K raw self Hfl). cbn. tauto. }
  assert (Hsame : _reader self = _reader self /\ _writer self = _writer self
                  /\ _first_line self = false
                  /\ (false = true -> _values self = _values self)).
  { rewrite Hfl. repeat split. }
  destruct (extract_fields K (_std_mode self)
              (rstrip (FRAME_END K) (rstrip (LINE_END K) raw)))
    as [[[[tag timestamp] value] checksum]|] eqn:Hx.
  2:{ rewrite (parse_line_field_count K raw self Hfl Hx). exact Hsame. }
  destruct (validate_checksum K self tag timestamp value checksum)
    as [[] | e] eqn:Hv.
  2:{ rewrite (parse_line_invalid K raw self _ _ _ _ e Hfl Hx Hv).
      destruct e; exact Hsame. }
  rewrite (parse_line_valid K raw self _ _ _ _ Hfl Hx Hv). cbn.
  destruct (decode_ascii value); [|exact Hsame].
  destruct (payload_timestamp timestamp); [|exact Hsame].
  destruct (decode_ascii tag); [|exact Hsame].
  cbn. rewrite Hfl. repeat split. discriminate.
Qed.

Lemma parse_line_consistent (K : const) (raw : bytes) (self : AsyncSerialReader) :
  _reader self <> None ->
  consistent self -> consistent (after (parse_line K raw self)).
Proof.
  intros Hr (Hw & Hf & Hv).
  destruct (parse_line_frame K raw self) as (Er & Ew & Ef & Ev).
  repeat split.
  - rewrite Er. intros Habs. contradiction.
  - rewrite Er. intros Habs. contradiction.
  - rewrite Ef. discriminate.
Qed.

Lemma turn_consistent (K : const) (e : env) (self : AsyncSerialReader) :
  consistent self -> consistent (after (read_serial_turn K e self)).
Proof.
  intros Hc. pose proof Hc as (Hw & Hf & Hv).
  destruct (_reader self) as [reader|] eqn:Hr.
  - destruct (_writer self) as [writer|] eqn:Hwr.
    + destruct (readline_result e) as [raw|] eqn:He.
      * destruct (stop_while_waiting e) as [event|] eqn:Hs.
        -- rewrite (turn_line_after_stop K e self _ _ _ _ Hr Hwr He Hs). cbn.
           repeat split; cbn; try (rewrite Hr; discriminate). exact Hv.
        -- rewrite (turn_line K e self _ _ _ Hr Hwr He Hs).
           assert (Hp : consistent (after (parse_line K raw self))).
           { apply parse_line_consistent; [rewrite Hr; discriminate | exact Hc]. }
           destruct (parse_line K raw self) as [[[]|ex] self' t]; exact Hp.
      * rewrite (turn_read_error K e self _ _ Hr Hwr He). apply reset_consistent.
    + rewrite (turn_stopped K e self _ Hr Hwr). exact Hc.
  - rewrite (turn_disconnected K e self Hr (Hw eq_refl)).
    destruct (open_result e) as [[reader writer]|]; cbn.
    + repeat split; cbn; try discriminate. exact Hv.
    + apply reset_consistent.
Qed.

Lemma read_serial_consistent (K : const) (script : list env)
    (self : AsyncSerialReader) :
  consistent self -> consistent (after (read_serial K script self)).
Proof.
  revert self. induction script as [|e script IH]; intros self Hc.
  - exact Hc.
  - rewrite read_serial_cons.
    pose proof (turn_consistent K e self Hc) as Ht.
    destruct (read_serial_turn K e self) as [[[]|ex] self1 t1]; cbn in Ht.
    + specialize (IH self1 Ht).
      destruct (read_serial K script self1) as [r self2 t2]. exact IH.
    + exact Ht.
    + exact Ht.
Qed.

(** ** Checksum mismatches *)

Lemma decode_ascii_raises (b : bytes) (e : exn) :
  decode_ascii b = Raise e -> e = UnicodeDecodeError /\ forallb is_ascii b = false.
Proof.
  unfold decode_ascii. destruct (forallb is_ascii b); [discriminate |].
  intros [= <-]. split; reflexivity.
Qed.

Lemma decode_ascii_ok (b : bytes) (s : string) :
  decode_ascii b = Ok s -> forallb is_ascii b = true.
Proof.
  unfold decode_ascii. destruct (forallb is_ascii b); [reflexivity | discriminate].
Qed.

Lemma payload_timestamp_raises (timestamp : option bytes) (e : exn) :
  payload_timestamp timestamp = Raise e -> e = UnicodeDecodeError.
Proof.
  destruct timestamp as [[|b ts]|]; cbn; try discriminate.
  destruct (decode_ascii (b :: ts)) eqn:Hd; cbn; [discriminate |].
  intros [= <-]. exact (proj1 (decode_ascii_raises _ _ Hd)).
Qed.

Lemma payload_timestamp_ok (timestamp : option bytes) (v : pyval) :
  payload_timestamp timestamp = Ok v ->
  forallb is_ascii (default [] timestamp) = true.
Proof.
  destruct timestamp as [[|b ts]|]; cbn; try reflexivity.
  destruct (decode_ascii (b :: ts)) eqn:Hd; cbn; [|discriminate].
  intros _. exact (decode_ascii_ok _ _ Hd).
Qed.

(** X1: a mismatch on a line that has a timestamp and ASCII fields: the
    exception is built with the full diagnostic state, caught by
    [parse_line] and logged; the object is unchanged. *)
Lemma mismatch_with_timestamp_logged (K : const) (self : AsyncSerialReader)
    (raw tag timestamp value : bytes) (c : byte)
    (tag' timestamp' value' : string) :
  _first_line self = false ->
  let line := rstrip (FRAME_END K) (rstrip (LINE_END K) raw) in
  extract_fields K (_std_mode self) line
  = Some (tag, Some timestamp, value, [c]) ->
  decode_ascii tag = Ok tag' ->
  decode_ascii timestamp = Ok timestamp' ->
  decode_ascii value = Ok value' ->
  let s1 := byte_sum (frame K self tag (Some timestamp) value) in
  Z.land s1 0x3F + 0x20 <> byte_val c ->
  parse_line K raw self
  = Outcome (Ok tt) self
      [Log DEBUG (MsgLineToParse raw);
       Log ERROR
         (MsgChecksumFailed line
            (InvalidChecksum.mk tag' timestamp' value' s1 (Z.land s1 0x3F)
               (Z.land s1 0x3F + 0x20) [c]))].
Proof.
  intros Hfl line Hx Ht Hts Hv s1 Hne.
  apply (parse_line_invalid K raw self _ _ _ _
           (InvalidChecksumError
              (InvalidChecksum.mk tag' timestamp' value' s1 (Z.land s1 0x3F)
                 (Z.land s1 0x3F + 0x20) [c])) Hfl Hx).
  unfold validate_checksum. cbn. fold s1.
  apply Z.eqb_neq in Hne. rewrite Hne. cbn.
  unfold InvalidChecksum__init__. rewrite Ht. cbn. rewrite Hts. cbn.
  rewrite Hv. reflexivity.
Qed.

(** A mismatch on a line without timestamp: [InvalidChecksum.__init__]
    calls [decode] on [None], and what leaves [validate_checksum], and then
    [parse_line], is an [AttributeError]. *)
Lemma mismatch_without_timestamp_escapes (K : const) (self : AsyncSerialReader)
    (raw tag value : bytes) (c : byte) :
  _first_line self = false ->
  extract_fields K (_std_mode self)
    (rstrip (FRAME_END K) (rstrip (LINE_END K) raw))
  = Some (tag, None, value, [c]) ->
  forallb is_ascii tag = true ->
  Z.land (byte_sum (frame K self tag None value)) 0x3F + 0x20 <> byte_val c ->
  parse_line K raw self
  = Outcome (Raise AttributeError) self [Log DEBUG (MsgLineToParse raw)].
Proof.
  intros Hfl Hx Ht Hne.
  apply (parse_line_invalid K raw self _ _ _ _ AttributeError Hfl Hx).
  unfold validate_checksum. cbn.
  apply Z.eqb_neq in Hne. rewrite Hne. cbn.
  unfold InvalidChecksum__init__, decode_ascii. rewrite Ht. reflexivity.
Qed.

Lemma mismatch_with_timestamp_logged_witness :
  parse_line tic adsc_bad_line (connected true)
  = Outcome (Ok tt) (connected true)
      [Log DEBUG (MsgLineToParse adsc_bad_line);
       Log ERROR
         (MsgChecksumFailed
            (rstrip (FRAME_END tic) (rstrip (LINE_END tic) adsc_bad_line))
            (InvalidChecksum.mk "ADSC" "TS001" "012345678901" 1244 28 60
               (bytes_of "X")))].
Proof.
  apply (mismatch_with_timestamp_logged tic (connected true) adsc_bad_line
           (bytes_of "ADSC") (bytes_of "TS001") (bytes_of "012345678901")
           "X"%byte "ADSC" "TS001" "012345678901");
    try reflexivity.
  vm_compute. discriminate.
Defined.

(** X2: a checksum field that is empty or longer than one byte: [ord] raises
    a [TypeError], which is not an [InvalidChecksum] and leaves
    [parse_line] with the object unchanged. *)
Lemma checksum_field_not_one_byte_escapes (K : const) (self : AsyncSerialReader)
    (raw tag : bytes) (timestamp : option bytes) (value checksum : bytes) :
  _first_line self = false ->
  extract_fields K (_std_mode self)
    (rstrip (FRAME_END K) (rstrip (LINE_END K) raw))
  = Some (tag, timestamp, value, checksum) ->
  length checksum <> 1%nat ->
  parse_line K raw self
  = Outcome (Raise TypeError) self [Log DEBUG (MsgLineToParse raw)].
Proof.
  intros Hfl Hx Hlen.
  apply (parse_line_invalid K raw self _ _ _ _ TypeError Hfl Hx).
  unfold validate_checksum.
  destruct checksum as [|c [|c' rest]]; cbn in *;
    [reflexivity | congruence | reflexivity].
Qed.

Lemma checksum_field_not_one_byte_escapes_witness :
  parse_line tic long_checksum_line (connected true)
  = Outcome (Raise TypeError) (connected true)
      [Log DEBUG (MsgLineToParse long_checksum_line)].
Proof.
  apply (checksum_field_not_one_byte_escapes tic (connected true)
           long_checksum_line (bytes_of "ADSC") None (bytes_of "012345678901")
           (bytes_of "XY")); try reflexivity.
  vm_compute. discriminate.
Defined.

(** C4 (the code at the failing input): historic mode, the line
    [ADCO 012345678901 X], whose computed checksum is [E].  Extraction
    succeeds without timestamp, the checksum does not match, and instead
    of an [InvalidChecksum] that [parse_line] catches and logs, an
    [AttributeError] leaves [validate_checksum], [parse_line] and the read
    loop: the next line of the script is never read. *)
Theorem mismatch_in_historic_mode_ends_read_loop :
  let self := connected false in
  extract_fields tic false (rstrip (FRAME_END tic) (rstrip (LINE_END tic) adco_bad_line))
  = Some (bytes_of "ADCO", None, bytes_of "012345678901", bytes_of "X")
  /\ Z.land (byte_sum (frame tic self (bytes_of "ADCO") None (bytes_of "012345678901")))
       0x3F + 0x20 = byte_val "E"%byte
  /\ validate_checksum tic self (bytes_of "ADCO") None (bytes_of "012345678901")
       (bytes_of "X") = Raise AttributeError
  /\ parse_line tic adco_bad_line self
     = Outcome (Raise AttributeError) self [Log DEBUG (MsgLineToParse adco_bad_line)]
  /\ read_serial tic [reads adco_bad_line; reads adco_line] self
     = Outcome (Raise AttributeError) self
         [Readline 0%nat; Log DEBUG (MsgLineToParse adco_bad_line)].
Proof.
  cbn zeta. repeat split; vm_compute; reflexivity.
Qed.

(** ** Decode failures *)

(** C5 (as amended): a line that passes field extraction and checksum
    validation but holds a non-ASCII byte in its tag, value or timestamp
    makes [decode] raise a [UnicodeDecodeError] that nothing catches.  The
    object, and so the value table, is unchanged and nothing is logged at
    error level, but the exception leaves [parse_line] and the read loop,
    which ends there whatever the rest of the script holds. *)
Theorem non_ascii_decode_error_escapes (K : const) (self : AsyncSerialReader)
    (raw tag : bytes) (timestamp : option bytes) (value checksum : bytes)
    (reader writer : handle) (e : env) (script : list env) :
  _first_line self = false ->
  _reader self = Some reader ->
  _writer self = Some writer ->
  readline_result e = Some raw ->
  stop_while_waiting e = None ->
  extract_fields K (_std_mode self)
    (rstrip (FRAME_END K) (rstrip (LINE_END K) raw))
  = Some (tag, timestamp, value, checksum) ->
  validate_checksum K self tag timestamp value checksum = Ok tt ->
  forallb is_ascii tag && forallb is_ascii (default [] timestamp)
    && forallb is_ascii value = false ->
  let seen := [Log DEBUG (MsgLineToParse raw); Log DEBUG MsgChecksumValid] in
  parse_line K raw self = Outcome (Raise UnicodeDecodeError) self seen
  /\ read_serial K (e :: script) self
     = Outcome (Raise UnicodeDecodeError) self (Readline reader :: seen).
Proof.
  intros Hfl Hr Hw He Hs Hx Hv Hascii seen.
  assert (Hp : parse_line K raw self
               = Outcome (Raise UnicodeDecodeError) self seen).
  { rewrite (parse_line_valid K raw self _ _ _ _ Hfl Hx Hv). cbn zeta.
    destruct (decode_ascii value) as [value'|ex] eqn:Hdv.
    2:{ destruct (decode_ascii_raises _ _ Hdv) as [-> _]. reflexivity. }
    destruct (payload_timestamp timestamp) as [timestamp'|ex] eqn:Hdt.
    2:{ rewrite (payload_timestamp_raises _ _ Hdt). reflexivity. }
    destruct (decode_ascii tag) as [tag'|ex] eqn:Hdg.
    2:{ destruct (decode_ascii_raises _ _ Hdg) as [-> _]. reflexivity. }
    rewrite (decode_ascii_ok _ _ Hdv), (decode_ascii_ok _ _ Hdg),
      (payload_timestamp_ok _ _ Hdt) in Hascii.
    discriminate. }
  split; [exact Hp |].
  rewrite read_serial_cons, (turn_line K e self _ _ _ Hr Hw He Hs), Hp.
  reflexivity.
Qed.

Lemma non_ascii_decode_error_escapes_witness :
  read_serial tic [reads non_ascii_line; reads adsc_line] (connected true)
  = Outcome (Raise UnicodeDecodeError) (connected true)
      [Readline 0%nat; Log DEBUG (MsgLineToParse non_ascii_line);
       Log DEBUG MsgChecksumValid].
Proof.
  exact (proj2 (non_ascii_decode_error_escapes tic (connected true)
                  non_ascii_line (bytes_of "ADSC") None [xe9] (bytes_of "6")
                  0%nat 1%nat (reads non_ascii_line) [reads adsc_line]
                  eq_refl eq_refl eq_refl eq_refl eq_refl eq_refl eq_refl
                  eq_refl)).
Defined.

(** C5 (the claim as stated fails): in standard mode the line
    [ADSC <tab> 0xE9 <tab> 6] has three fields and a matching checksum,
    and its value is not ASCII.  The turn of the read loop that receives
    it does not complete: the result is a raised [UnicodeDecodeError], not
    a continued loop, and no error was logged for the line. *)
Lemma non_ascii_line_is_not_dropped :
  let self := connected true in
  let o := read_serial_turn tic (reads non_ascii_line) self in
  extract_fields tic true
    (rstrip (FRAME_END tic) (rstrip (LINE_END tic) non_ascii_line))
  = Some (bytes_of "ADSC", None, [xe9], bytes_of "6")
  /\ validate_checksum tic self (bytes_of "ADSC") None [xe9] (bytes_of "6") = Ok tt
  /\ is_ascii xe9 = false
  /\ res o <> Ok Continue
  /\ res o = Raise UnicodeDecodeError
  /\ trace o = [Readline 0%nat; Log DEBUG (MsgLineToParse non_ascii_line);
                Log DEBUG MsgChecksumValid].
Proof.
  cbn zeta. repeat split; try (vm_compute; reflexivity).
  vm_compute. discriminate.
Qed.

(** ** Storing a decoded line *)

(** X3: a line that passes extraction and validation and decodes as ASCII is
    stored under its tag, replacing what was there, and [get_values] then
    returns its value and timestamp. *)
Lemma valid_line_is_stored (K : const) (self : AsyncSerialReader)
    (raw tag : bytes) (timestamp : option bytes) (value checksum : bytes)
    (tag' value' : string) (timestamp' : pyval) :
  _first_line self = false ->
  extract_fields K (_std_mode self)
    (rstrip (FRAME_END K) (rstrip (LINE_END K) raw))
  = Some (tag, timestamp, value, checksum) ->
  validate_checksum K self tag timestamp value checksum = Ok tt ->
  decode_ascii tag = Ok tag' ->
  decode_ascii value = Ok value' ->
  payload_timestamp timestamp = Ok timestamp' ->
  let p := {| value := value'; timestamp := timestamp' |} in
  let stored := set_values (<[tag' := p]> (_values self)) self in
  parse_line K raw self
  = Outcome (Ok tt) stored
      [Log DEBUG (MsgLineToParse raw); Log DEBUG MsgChecksumValid;
       Log DEBUG (MsgReadValues tag' p)]
  /\ get_values tag' stored = Outcome (Ok (PyStr value', timestamp')) stored [].
Proof.
  intros Hfl Hx Hv Ht Hval Hts p stored. split.
  - rewrite (parse_line_valid K raw self _ _ _ _ Hfl Hx Hv).
    cbn zeta. rewrite Hval, Hts, Ht. reflexivity.
  - unfold get_values. run. rewrite lookup_insert_eq. reflexivity.
Qed.

Lemma valid_line_is_stored_witness :
  let stored := after (parse_line tic adsc_line (connected true)) in
  res (parse_line tic adsc_line (connected true)) = Ok tt
  /\ get_values "ADSC" stored
     = Outcome (Ok (PyStr "012345678901", PyStr "TS001")) stored [].
Proof.
  destruct (valid_line_is_stored tic (connected true) adsc_line
              (bytes_of "ADSC") (Some (bytes_of "TS001"))
              (bytes_of "012345678901") (bytes_of "<")
              "ADSC" "012345678901" (PyStr "TS001")
              eq_refl eq_refl eq_refl eq_refl eq_refl eq_refl) as [Hp Hg].
  cbn zeta. rewrite Hp. split; [reflexivity | exact Hg].
Defined.

(** ** Reading values after a stop *)

(** C10: stopping does not clear the value table.  [stop_serial_read]
    leaves [_values] as it is, and although [is_connected()] is falsy
    afterwards, the guard of [get_values] tests the method object, which is
    truthy, so for every stored tag [get_values] still returns the stored
    value and timestamp, and logs nothing. *)
Theorem get_values_after_stop (self : AsyncSerialReader) (event tag : string)
    (p : payload) :
  _values self !! tag = Some p ->
  let stopped := after (stop_serial_read event self) in
  _values stopped = _values self
  /\ is_connected stopped = None
  /\ bound_method_truthy is_connected = true
  /\ get_values tag stopped
     = Outcome (Ok (PyStr (value p), timestamp p)) stopped [].
Proof.
  intros Hp stopped.
  assert (Hv : _values stopped = _values self).
  { unfold stopped. rewrite stop_serial_read_cases.
    destruct (_writer self); reflexivity. }
  split; [exact Hv |]. split; [|split; [reflexivity |]].
  - unfold stopped, is_connected. rewrite stop_serial_read_cases.
    destruct (_writer self) eqn:Hw; cbn.
    + destruct (_reader self); reflexivity.
    + rewrite Hw. destruct (_reader self); reflexivity.
  - unfold get_values. run. rewrite Hv, Hp. reflexivity.
Qed.

Lemma get_values_after_stop_witness :
  let self := after (parse_line tic adsc_line (connected true)) in
  get_values "ADSC" (after (stop_serial_read "homeassistant_stop" self))
  = Outcome (Ok (PyStr "012345678901", PyStr "TS001"))
      (after (stop_serial_read "homeassistant_stop" self)) [].
Proof.
  exact (proj2 (proj2 (proj2
    (get_values_after_stop (after (parse_line tic adsc_line (connected true)))
       "homeassistant_stop" "ADSC"
       {| value := "012345678901"; timestamp := PyStr "TS001" |}
       eq_refl)))).
Defined.

(** ** The first line after a connection *)

Lemma parse_line_not_first (K : const) (raw : bytes) (self : AsyncSerialReader) :
  _first_line self = false ->
  exists t, trace (parse_line K raw self) = Log DEBUG (MsgLineToParse raw) :: t.
Proof.
  intros Hfl.
  destruct (extract_fields K (_std_mode self)
              (rstrip (FRAME_END K) (rstrip (LINE_END K) raw)))
    as [[[[tag timestamp] value] checksum]|] eqn:Hx.
  2:{ rewrite (parse_line_field_count K raw self Hfl Hx). cbn. eauto. }
  destruct (validate_checksum K self tag timestamp value checksum)
    as [[] | e] eqn:Hv.
  2:{ rewrite (parse_line_invalid K raw self _ _ _ _ e Hfl Hx Hv).
      destruct e; cbn; eauto. }
  rewrite (parse_line_valid K raw self _ _ _ _ Hfl Hx Hv). cbn.
  destruct (decode_ascii value); cbn; [|eauto].
  destruct (payload_timestamp timestamp); cbn; [|eauto].
  destruct (decode_ascii tag); cbn; eauto.
Qed.

(** Past the first line, [parse_line] never logs a skip. *)
Lemma parse_line_no_skip (K : const) (raw : bytes) (self : AsyncSerialReader) :
  _first_line self = false ->
  Forall not_a_skip (trace (parse_line K raw self)).
Proof.
  intros Hfl.
  destruct (extract_fields K (_std_mode self)
              (rstrip (FRAME_END K) (rstrip (LINE_END K) raw)))
    as [[[[tag timestamp] value] checksum]|] eqn:Hx.
  2:{ rewrite (parse_line_field_count K raw self Hfl Hx). cbn [trace].
      repeat constructor; intros raw'; discriminate. }
  destruct (validate_checksum K self tag timestamp value checksum)
    as [[] | e] eqn:Hv.
  2:{ rewrite (parse_line_invalid K raw self _ _ _ _ e Hfl Hx Hv).
      destruct e; cbn [trace]; repeat constructor; intros raw'; discriminate. }
  rewrite (parse_line_valid K raw self _ _ _ _ Hfl Hx Hv). cbn zeta.
  destruct (decode_ascii value); cbn [trace];
    [|repeat constructor; intros raw'; discriminate].
  destruct (payload_timestamp timestamp); cbn [trace];
    [|repeat constructor; intros raw'; discriminate].
  destruct (decode_ascii tag); cbn [trace app];
    repeat constructor; intros raw'; discriminate.
Qed.

(** A turn on a connection whose first line is behind, when [readline]
    returns a line: the connection is kept, the flag stays cleared and no
    skip is logged. *)
Lemma turn_on_connection_no_skip (K : const) (e : env)
    (self : AsyncSerialReader) :
  _reader self <> None -> _first_line self = false ->
  readline_result e <> None ->
  _reader (after (read_serial_turn K e self)) <> None
  /\ _first_line (after (read_serial_turn K e self)) = false
  /\ Forall not_a_skip (trace (read_serial_turn K e self)).
Proof.
  intros Hr Hfl He.
  destruct (_reader self) as [reader|] eqn:Er; [clear Hr | contradiction].
  destruct (readline_result e) as [raw|] eqn:Ee; [clear He | contradiction].
  destruct (_writer self) as [writer|] eqn:Ew.
  - destruct (stop_while_waiting e) as [event|] eqn:Es.
    + rewrite (turn_line_after_stop K e self _ _ _ _ Er Ew Ee Es). cbn.
      rewrite Er. split; [discriminate | split; [exact Hfl |]].
      repeat constructor; intros raw'; discriminate.
    + rewrite (turn_line K e self _ _ _ Er Ew Ee Es).
      destruct (parse_line_frame K raw self) as (Pr & _ & Pf & _).
      pose proof (parse_line_no_skip K raw self Hfl) as Pt.
      destruct (parse_line K raw self) as [[[]|ex] self' t];
        cbn in Pr, Pf, Pt |- *; rewrite Pr, Er;
        (split; [discriminate | split; [exact Pf |]]);
        (constructor; [intros raw'; discriminate | exact Pt]).
  - rewrite (turn_stopped K e self _ Er Ew). cbn. rewrite Er.
    split; [discriminate | split; [exact Hfl |]].
    repeat constructor; intros raw'; discriminate.
Qed.

Lemma run_on_connection_no_skip (K : const) (script : list env)
    (self : AsyncSerialReader) :
  _reader self <> None -> _first_line self = false ->
  Forall (fun e => readline_result e <> None) script ->
  _first_line (after (read_serial K script self)) = false
  /\ Forall not_a_skip (trace (read_serial K script self)).
Proof.
  revert self. induction script as [|e script IH]; intros self Hr Hfl Hall.
  - split; [exact Hfl | constructor].
  - inversion Hall as [|? ? He Hrest]; subst.
    rewrite read_serial_cons.
    destruct (turn_on_connection_no_skip K e self Hr Hfl He)
      as (Hr' & Hfl' & Ht).
    destruct (read_serial_turn K e self) as [[[]|ex] self1 t1];
      cbn in Hr', Hfl', Ht |- *; [|split; assumption | split; assumption].
    destruct (IH self1 Hr' Hfl' Hrest) as (Hf2 & Ht2).
    destruct (read_serial K script self1) as [r self2 t2]. cbn in *.
    split; [exact Hf2 | apply Forall_app; split; assumption].
Qed.

(** C6: take the session at any point of any run where it has no reader,
    let the next open succeed and the next read return a line.  The skip
    flag is armed at that point and still armed once the transport is
    open; the line, whatever it holds, is only logged as skipped: the turn
    clears the flag and changes nothing else, so the value table stays
    empty.  The line after that is handed to the parser, and so is every
    later line of the connection: however the loop goes on, as long as
    [readline] keeps returning lines, the flag stays cleared and no
    further line is logged as skipped.  Every [_reset_state], the only
    way back to a session without reader, arms the flag again. *)
Theorem first_line_after_connection_discarded (K : const) (port : string)
    (std_mode : bool) (script : list env) (e1 e2 : env)
    (reader writer : handle) (raw : bytes) :
  let self :=
    after (read_serial K script (AsyncSerialReader__init__ port std_mode)) in
  _reader self = None ->
  open_result e1 = Some (reader, writer) ->
  readline_result e2 = Some raw ->
  stop_while_waiting e2 = None ->
  let opened := set_transport (Some reader) (Some writer) self in
  let skipped := set_first_line false opened in
  _first_line self = true
  /\ read_serial_turn K e1 self
     = Outcome (Ok Continue) opened [OpenSerialConnection (_port self)]
  /\ _first_line opened = true
  /\ read_serial_turn K e2 opened
     = Outcome (Ok Continue) skipped
         [Readline reader; Log DEBUG (MsgSkippingFirstLine raw)]
  /\ _values skipped = ∅
  /\ (forall e3 raw3, readline_result e3 = Some raw3 ->
        stop_while_waiting e3 = None ->
        exists t, trace (read_serial_turn K e3 skipped)
                  = Readline reader :: Log DEBUG (MsgLineToParse raw3) :: t)
  /\ (forall later : list env,
        Forall (fun e => readline_result e <> None) later ->
        _first_line (after (read_serial K later skipped)) = false
        /\ Forall (fun a => forall raw', a <> Log DEBUG (MsgSkippingFirstLine raw'))
             (trace (read_serial K later skipped)))
  /\ (forall e s, _first_line (after (_reset_state e s)) = true).
Proof.
  intros self Hr Ho He Hs opened skipped.
  destruct (read_serial_consistent K script
              (AsyncSerialReader__init__ port std_mode)
              (init_consistent port std_mode)) as (Hw & Hf & Hv).
  fold self in Hw, Hf, Hv.
  assert (Hfl : _first_line self = true) by exact (Hf Hr).
  split; [exact Hfl |].
  split.
  { rewrite (turn_disconnected K e1 self Hr (Hw Hr)), Ho. reflexivity. }
  split; [exact Hfl |].
  split.
  { rewrite (turn_line K e2 opened reader writer raw eq_refl eq_refl He Hs).
    rewrite (parse_line_first K raw opened Hfl). reflexivity. }
  split; [exact (Hv Hfl) |].
  split; [|split].
  - intros e3 raw3 He3 Hs3.
    rewrite (turn_line K e3 skipped reader writer raw3 eq_refl eq_refl He3 Hs3).
    destruct (parse_line_not_first K raw3 skipped eq_refl) as [t Ht].
    destruct (parse_line K raw3 skipped) as [[[]|ex] self' t'];
      cbn in Ht; subst t'; cbn; eauto.
  - intros later Hlater.
    apply (run_on_connection_no_skip K later skipped);
      [discriminate | reflexivity | exact Hlater].
  - intros e s. rewrite reset_state_outcome. reflexivity.
Qed.

(** ** Connectivity *)

(** C7 (as amended): take the session at any point of any run and let it
    take one more turn.  If that turn is a failed open or a failed read,
    the value table is empty, [is_connected()] is [None] and the session
    is Disconnected.  Whenever the session is Disconnected the table is
    empty and [is_connected()] is [None], and one more turn leaves it
    Disconnected or, when the open succeeds, AwaitingFirstLine.
    [is_connected()] is truthy exactly in the AwaitingFirstLine and
    Connected states, and in AwaitingFirstLine the table is still
    empty. *)
Theorem connectivity_follows_transport (K : const) (port : string)
    (std_mode : bool) (script : list env) (e : env) :
  let self :=
    after (read_serial K script (AsyncSerialReader__init__ port std_mode)) in
  let self' := after (read_serial_turn K e self) in
  ((_reader self = None /\ open_result e = None
    \/ truthy (is_connected self) = true /\ readline_result e = None) ->
   _values self' = ∅ /\ is_connected self' = None
   /\ session_state self' = Disconnected)
  /\ (session_state self = Disconnected ->
      _values self = ∅ /\ is_connected self = None
      /\ (session_state self' = Disconnected
          \/ session_state self' = AwaitingFirstLine /\ open_result e <> None))
  /\ (truthy (is_connected self) = true <->
      session_state self = AwaitingFirstLine \/ session_state self = Connected)
  /\ (session_state self = AwaitingFirstLine -> _values self = ∅).
Proof.
  intros self self'.
  destruct (read_serial_consistent K script
              (AsyncSerialReader__init__ port std_mode)
              (init_consistent port std_mode)) as (Hw & Hf & Hv).
  fold self in Hw, Hf, Hv.
  split; [|split; [|split]].
  - intros [[Hr Ho] | [Hc He]]; unfold self'.
    + rewrite (turn_disconnected K e self Hr (Hw Hr)), Ho. repeat split.
    + unfold is_connected in Hc.
      destruct (_reader self) as [reader|] eqn:Hr; [|discriminate].
      destruct (_writer self) as [writer|] eqn:Hwr; [|discriminate].
      rewrite (turn_read_error K e self _ _ Hr Hwr He). repeat split.
  - unfold session_state, is_connected.
    destruct (_reader self) as [reader|] eqn:Hr.
    { destruct (_writer self); [destruct (_first_line self)|]; discriminate. }
    intros _. split; [exact (Hv (Hf eq_refl)) |]. split; [reflexivity |].
    pose proof (turn_disconnected K e self Hr (Hw eq_refl)) as Ht.
    fold self' in Ht.
    destruct (open_result e) as [[reader writer]|].
    + right. assert (Hs : self' = set_transport (Some reader) (Some writer) self).
      { unfold self'. rewrite Ht. reflexivity. }
      rewrite Hs. cbn. rewrite (Hf eq_refl). split; [reflexivity | discriminate].
    + left. unfold self'. rewrite Ht. reflexivity.
  - unfold session_state, is_connected.
    destruct (_reader self), (_writer self), (_first_line self); cbn;
      split; intros H; try discriminate; try tauto;
      destruct H as [H | H]; discriminate.
  - unfold session_state.
    destruct (_reader self); [|discriminate].
    destruct (_writer self); [|discriminate].
    destruct (_first_line self) eqn:Hfl; [|discriminate].
    intros _. exact (Hv eq_refl).
Qed.

(** C7 (the claim as stated fails): after a read error and a successful
    reopen, before any line has been received, [is_connected()] is already
    truthy while the session is in AwaitingFirstLine and not in Connected. *)
Lemma is_connected_before_connected_state :
  let lost := {| open_result := None; readline_result := None;
                 stop_while_waiting := None; stop_while_sleeping := None |} in
  let reopened := {| open_result := Some (2%nat, 3%nat); readline_result := None;
                     stop_while_waiting := None; stop_while_sleeping := None |} in
  let self := after (read_serial tic [lost; reopened] (connected true)) in
  is_connected self = Some 3%nat
  /\ truthy (is_connected self) = true
  /\ session_state self = AwaitingFirstLine
  /\ session_state self <> Connected.
Proof.
  cbn zeta. repeat split; try (vm_compute; reflexivity).
  vm_compute. discriminate.
Qed.

(** ** Stop during the backoff *)

(** C8 (the code at the failing input): right after any [_reset_state] the
    stop callback finds no writer and does nothing at all, and the next
    turn of the loop opens the serial connection again.  On the run where
    the first open fails, the stop event arrives during the 5 s sleep and
    the transport then answers: the loop opens a second time, keeps
    running, and reports itself connected. *)
Theorem stop_during_backoff_reconnects :
  (forall (K : const) (self : AsyncSerialReader) (event : string) (e : env),
      stop_serial_read event (reset self) = Outcome (Ok tt) (reset self) []
      /\ exists t, read_serial_turn K e (reset self)
                   = Outcome (Ok Continue)
                       (after (read_serial_turn K e (reset self)))
                       (OpenSerialConnection (_port self) :: t))
  /\ let failed := {| open_result := None; readline_result := None;
                      stop_while_waiting := None;
                      stop_while_sleeping := Some "homeassistant_stop" |} in
     let answers := {| open_result := Some (0%nat, 1%nat);
                       readline_result := None;
                       stop_while_waiting := None;
                       stop_while_sleeping := None |} in
     let port := "/dev/ttyUSB0" in
     let o := read_serial tic [failed; answers]
                (AsyncSerialReader__init__ port false) in
     res o = Ok Running
     /\ trace o = [OpenSerialConnection port;
                   Log EXCEPTION (MsgUnableToConnect port);
                   Log DEBUG MsgResetState; Sleep 5;
                   OpenSerialConnection port]
     /\ is_connected (after o) = Some 1%nat.
Proof.
  split.
  - intros K self event e. split.
    + rewrite stop_serial_read_cases. reflexivity.
    + rewrite (turn_disconnected K e (reset self) eq_refl eq_refl).
      destruct (open_result e) as [[reader writer]|]; cbn; eauto.
  - cbn zeta. repeat split; vm_compute; reflexivity.
Qed.

(** ** The statements above at the sample lines *)

Lemma validate_checksum_judgement_witness :
  byte_sum (bytes_of "ADSC" ++ [x09] ++ bytes_of "TS001" ++ [x09]
              ++ bytes_of "012345678901" ++ [x09]) = 1244
  /\ validate_checksum tic (connected true) (bytes_of "ADSC")
       (Some (bytes_of "TS001")) (bytes_of "012345678901") (bytes_of "<")
     = Ok tt
  /\ In (Log DEBUG MsgChecksumValid)
       (trace (parse_line tic adsc_line (connected true))).
Proof.
  destruct (validate_checksum_judgement tic (connected true) adsc_line
              (bytes_of "ADSC") (Some (bytes_of "TS001"))
              (bytes_of "012345678901") (bytes_of "<") eq_refl eq_refl)
    as (_ & Hsum & Hv & Hp).
  split; [exact Hsum | split; [apply Hv | apply Hp]];
    exists "<"%byte; split; reflexivity.
Defined.

Lemma standard_field_extraction_witness :
  parse_line tic adsc_line (connected true)
  = Outcome (Ok tt)
      (set_values
         {["ADSC" := {| value := "012345678901"; timestamp := PyStr "TS001" |}]}
         (connected true))
      [Log DEBUG (MsgLineToParse adsc_line); Log DEBUG MsgChecksumValid;
       Log DEBUG
         (MsgReadValues "ADSC"
            {| value := "012345678901"; timestamp := PyStr "TS001" |})]
  /\ parse_line tic adsc_plain_line (connected true)
     = Outcome (Ok tt)
         (set_values
            {["ADSC" := {| value := "012345678901"; timestamp := PyNone |}]}
            (connected true))
         [Log DEBUG (MsgLineToParse adsc_plain_line);
          Log DEBUG MsgChecksumValid;
          Log DEBUG
            (MsgReadValues "ADSC"
               {| value := "012345678901"; timestamp := PyNone |})]
  /\ parse_line tic short_line (connected true)
     = Outcome (Ok tt) (connected true)
         [Log DEBUG (MsgLineToParse short_line);
          Log ERROR
            (MsgFieldCount true 2
               (bytes_of "ADSC" ++ [x09] ++ bytes_of "012345678901"))].
Proof.
  split; [|split].
  - exact (proj2 (proj1
      (standard_field_extraction tic (connected true) adsc_line
         eq_refl eq_refl)
      (bytes_of "ADSC") (bytes_of "TS001") (bytes_of "012345678901")
      (bytes_of "<") eq_refl)).
  - exact (proj2 (proj1 (proj2
      (standard_field_extraction tic (connected true) adsc_plain_line
         eq_refl eq_refl))
      (bytes_of "ADSC") (bytes_of "012345678901") (bytes_of ";") eq_refl)).
  - apply (proj2 (proj2
      (standard_field_extraction tic (connected true) short_line
         eq_refl eq_refl))); vm_compute; discriminate.
Defined.

Lemma historic_field_extraction_witness :
  parse_line tic sep_checksum_line (connected false)
  = Outcome (Ok tt)
      (set_values
         {["ADCO" := {| value := "01234567890L"; timestamp := PyNone |}]}
         (connected false))
      [Log DEBUG (MsgLineToParse sep_checksum_line);
       Log DEBUG MsgChecksumValid;
       Log DEBUG
         (MsgReadValues "ADCO"
            {| value := "01234567890L"; timestamp := PyNone |})]
  /\ parse_line tic adco_line (connected false)
     = Outcome (Ok tt)
         (set_values
            {["ADCO" := {| value := "012345678901"; timestamp := PyNone |}]}
            (connected false))
         [Log DEBUG (MsgLineToParse adco_line); Log DEBUG MsgChecksumValid;
          Log DEBUG
            (MsgReadValues "ADCO"
               {| value := "012345678901"; timestamp := PyNone |})].
Proof.
  split.
  - exact (proj2 (proj2 (proj1 (proj2
      (historic_field_extraction tic (connected false) sep_checksum_line
         eq_refl))
      (bytes_of "ADCO") (bytes_of "01234567890L") [] [] eq_refl)) eq_refl).
  - exact (proj2 (proj1
      (historic_field_extraction tic (connected false) adco_line eq_refl)
      (bytes_of "ADCO") (bytes_of "012345678901") (bytes_of "E") eq_refl)
      eq_refl).
Defined.

Lemma first_line_after_connection_discarded_witness :
  let answers := {| open_result := Some (0%nat, 1%nat); readline_result := None;
                    stop_while_waiting := None; stop_while_sleeping := None |} in
  let lost := {| open_result := None; readline_result := None;
                 stop_while_waiting := None; stop_while_sleeping := None |} in
  let self := after (read_serial tic [answers; reads []; reads adsc_line; lost]
                       (AsyncSerialReader__init__ "/dev/ttyUSB0" true)) in
  let opened := set_transport (Some 2%nat) (Some 3%nat) self in
  let skipped := set_first_line false opened in
  let later := [reads adsc_line; reads adsc_plain_line; reads short_line] in
  _reader self = None
  /\ read_serial_turn tic (reads adsc_line) opened
     = Outcome (Ok Continue) skipped
         [Readline 2%nat; Log DEBUG (MsgSkippingFirstLine adsc_line)]
  /\ _first_line (after (read_serial tic later skipped)) = false
  /\ Forall (fun a => forall raw', a <> Log DEBUG (MsgSkippingFirstLine raw'))
        (trace (read_serial tic later skipped))
  /\ _values (after (read_serial tic later skipped)) !! "ADSC"
     = Some {| value := "012345678901"; timestamp := PyNone |}.
Proof.
  cbn zeta.
  destruct (first_line_after_connection_discarded tic "/dev/ttyUSB0" true
       [{| open_result := Some (0%nat, 1%nat); readline_result := None;
           stop_while_waiting := None; stop_while_sleeping := None |};
        reads [];
        reads adsc_line;
        {| open_result := None; readline_result := None;
           stop_while_waiting := None; stop_while_sleeping := None |}]
       {| open_result := Some (2%nat, 3%nat); readline_result := None;
          stop_while_waiting := None; stop_while_sleeping := None |}
       (reads adsc_line) 2%nat 3%nat adsc_line
       eq_refl eq_refl eq_refl eq_refl)
    as (_ & _ & _ & Hskip & _ & _ & Hlater & _).
  destruct (Hlater [reads adsc_line; reads adsc_plain_line; reads short_line])
    as (Hfl & Hno).
  { repeat constructor; discriminate. }
  split; [reflexivity |].
  split; [exact Hskip |].
  split; [exact Hfl |].
  split; [exact Hno | reflexivity].
Defined.

Lemma connectivity_follows_transport_witness :
  let lost := {| open_result := None; readline_result := None;
                 stop_while_waiting := None; stop_while_sleeping := None |} in
  let answers := {| open_result := Some (0%nat, 1%nat); readline_result := None;
                    stop_while_waiting := None; stop_while_sleeping := None |} in
  let self := after (read_serial tic [answers; reads []; reads adsc_line]
                       (AsyncSerialReader__init__ "/dev/ttyUSB0" true)) in
  let self' := after (read_serial_turn tic lost self) in
  _values self !! "ADSC"
  = Some {| value := "012345678901"; timestamp := PyStr "TS001" |}
  /\ _values self' = ∅ /\ is_connected self' = None
  /\ session_state self' = Disconnected.
Proof.
  cbn zeta. split; [reflexivity |].
  apply (proj1 (connectivity_follows_transport tic "/dev/ttyUSB0" true
    [{| open_result := Some (0%nat, 1%nat); readline_result := None;
        stop_while_waiting := None; stop_while_sleeping := None |};
     reads []; reads adsc_line]
    {| open_result := None; readline_result := None;
       stop_while_waiting := None; stop_while_sleeping := None |})).
  right. split; reflexivity.
Defined.

(** * Further properties of the reader *)

(** ** Splitting and stripping *)

Lemma byte_eqb_refl (b : byte) : Byte.eqb b b = true.
Proof. apply Byte.byte_dec_lb. reflexivity. Qed.

Lemma split_not_nil (sep : byte) (line : bytes) : split sep line <> [].
Proof.
  destruct line as [|b rest]; cbn; [discriminate |].
  destruct (Byte.eqb b sep); [discriminate |].
  destruct (split sep rest); discriminate.
Qed.

Lemma split_length (sep : byte) (line : bytes) :
  length (split sep line) = S (count_sep sep line).
Proof.
  unfold count_sep. induction line as [|b rest IH]; cbn; [reflexivity |].
  destruct (Byte.eqb b sep) eqn:Hb.
  - cbn. rewrite IH. reflexivity.
  - destruct (split sep rest) as [|f fs] eqn:Hs.
    + exfalso. exact (split_not_nil _ _ Hs).
    + cbn in *. exact IH.
Qed.

Lemma split_cons_inv (sep : byte) (line f : bytes) (fs : list bytes) :
  split sep line = f :: fs ->
  ~ In sep f /\
  match fs with
  | [] => line = f
  | _ :: _ => exists rest, line = f ++ sep :: rest /\ split sep rest = fs
  end.
Proof.
  revert f fs. induction line as [|b rest IH]; intros f fs; cbn.
  - intros [= <- <-]. split; [intros [] | reflexivity].
  - destruct (Byte.eqb b sep) eqn:Hb.
    + intros [= <- <-]. apply Byte.byte_dec_bl in Hb. subst b.
      split; [intros [] |].
      destruct (split sep rest) as [|g gs] eqn:Hs.
      * exfalso. exact (split_not_nil _ _ Hs).
      * exists rest. split; [reflexivity | exact Hs].
    + destruct (split sep rest) as [|g gs] eqn:Hs.
      * exfalso. exact (split_not_nil _ _ Hs).
      * intros [= <- <-]. destruct (IH g gs eq_refl) as [Hg Hrest].
        split.
        -- intros [-> | Hin]; [|exact (Hg Hin)].
           rewrite byte_eqb_refl in Hb. discriminate.
        -- destruct gs as [|g' gs'].
           ++ subst rest. reflexivity.
           ++ destruct Hrest as (rest' & -> & Hr). exists rest'.
              split; [reflexivity | exact Hr].
Qed.

Lemma split_no_sep (sep : byte) (f : bytes) :
  ~ In sep f -> split sep f = [f].
Proof.
  induction f as [|b f IH]; cbn; [reflexivity |].
  intros Hn. destruct (Byte.eqb b sep) eqn:Hb.
  - apply Byte.byte_dec_bl in Hb. subst b. exfalso. apply Hn. left. reflexivity.
  - rewrite IH by (intros Hin; apply Hn; right; exact Hin). reflexivity.
Qed.

Lemma split_app_sep (sep : byte) (f rest : bytes) :
  ~ In sep f -> split sep (f ++ sep :: rest) = f :: split sep rest.
Proof.
  induction f as [|b f IH]; cbn.
  - intros _. rewrite byte_eqb_refl. reflexivity.
  - intros Hn. destruct (Byte.eqb b sep) eqn:Hb.
    + apply Byte.byte_dec_bl in Hb. subst b. exfalso. apply Hn. left. reflexivity.
    + rewrite IH by (intros Hin; apply Hn; right; exact Hin). reflexivity.
Qed.

Lemma rstrip_all (chars line : bytes) :
  forallb (in_chars chars) line = true -> rstrip chars line = [].
Proof.
  induction line as [|b rest IH]; cbn; [reflexivity |].
  intros [Hb Hrest]%andb_true_iff. rewrite (IH Hrest).
  unfold in_chars in Hb. rewrite Hb. reflexivity.
Qed.

Lemma rstrip_app_stripped (chars line ending : bytes) :
  forallb (in_chars chars) ending = true ->
  rstrip chars (line ++ ending) = rstrip chars line.
Proof.
  intros He. induction line as [|b rest IH]; cbn.
  - apply rstrip_all. exact He.
  - rewrite IH. reflexivity.
Qed.


(** ** Accepted lines *)

Lemma split_three (sep : byte) (line a b c : bytes) :
  split sep line = [a; b; c] ->
  line = a ++ [sep] ++ b ++ [sep] ++ c
  /\ ~ In sep a /\ ~ In sep b /\ ~ In sep c.
Proof.
  intros H.
  destruct (split_cons_inv _ _ _ _ H) as (Ha & r1 & -> & H1).
  destruct (split_cons_inv _ _ _ _ H1) as (Hb & r2 & -> & H2).
  destruct (split_cons_inv _ _ _ _ H2) as (Hc & ->).
  repeat split; assumption.
Qed.

Lemma split_four (sep : byte) (line a b c d : bytes) :
  split sep line = [a; b; c; d] ->
  line = a ++ [sep] ++ b ++ [sep] ++ c ++ [sep] ++ d
  /\ ~ In sep a /\ ~ In sep b /\ ~ In sep c /\ ~ In sep d.
Proof.
  intros H.
  destruct (split_cons_inv _ _ _ _ H) as (Ha & r1 & -> & H1).
  destruct (split_cons_inv _ _ _ _ H1) as (Hb & r2 & -> & H2).
  destruct (split_cons_inv _ _ _ _ H2) as (Hc & r3 & -> & H3).
  destruct (split_cons_inv _ _ _ _ H3) as (Hd & ->).
  repeat split; assumption.
Qed.

(** X4: a line is accepted by field extraction exactly when its stripped
    form holds two or three separator bytes of the session's mode; with
    any other count [parse_line] logs the number of fields, which is the
    number of separators plus one, and returns with the object unchanged. *)
Theorem extraction_accepts_by_separator_count (K : const) (self : AsyncSerialReader)
    (raw : bytes) :
  let std_mode := _std_mode self in
  let line := rstrip (FRAME_END K) (rstrip (LINE_END K) raw) in
  let n := count_sep (field_separator K std_mode) line in
  (is_Some (extract_fields K std_mode line) <-> n = 2%nat \/ n = 3%nat)
  /\ (_first_line self = false -> n <> 2%nat -> n <> 3%nat ->
      parse_line K raw self
      = Outcome (Ok tt) self
          [Log DEBUG (MsgLineToParse raw);
           Log ERROR (MsgFieldCount std_mode (S n) line)]).
Proof.
  intros std_mode line n.
  assert (Hiff : is_Some (extract_fields K std_mode line)
                 <-> n = 2%nat \/ n = 3%nat).
  { pose proof (split_length (field_separator K std_mode) line) as Hlen.
    fold n in Hlen. unfold extract_fields, field_separator in *.
    destruct std_mode;
      destruct (split _ line) as [|f1 [|f2 [|f3 [|f4 [|f5 fs]]]]];
      cbn in Hlen; split;
      try (intros [x Hx]; discriminate Hx);
      try (intros _; lia); try (intros [?|?]; lia);
      intros _; eauto. }
  split; [exact Hiff |].
  intros Hfl H2 H3.
  pose proof (parse_line_field_count K raw self Hfl) as Hp.
  cbn zeta in Hp. fold line std_mode in Hp.
  rewrite (split_length (field_separator K std_mode) line) in Hp. fold n in Hp.
  apply Hp.
  destruct (extract_fields K std_mode line) eqn:Hx; [|reflexivity].
  exfalso. destruct Hiff as [Hi _].
  assert (Hn : n = 2%nat \/ n = 3%nat) by (apply Hi; eauto). lia.
Qed.

(** X5: for every line accepted by field extraction, no extracted tag,
    value or timestamp holds a separator byte, and the frame that
    [validate_checksum] rebuilds is a prefix of the line: in standard mode
    the line is the frame followed by the checksum field; in historic mode
    it is the frame, one separator and a rest, where the rest is the
    checksum field or, when the checksum is taken to be the separator,
    holds exactly one more separator. *)
Theorem accepted_line_is_frame_then_checksum (K : const)
    (self : AsyncSerialReader) (line tag : bytes) (timestamp : option bytes)
    (value checksum : bytes) :
  extract_fields K (_std_mode self) line
  = Some (tag, timestamp, value, checksum) ->
  let sep := field_separator K (_std_mode self) in
  ~ In sep tag /\ ~ In sep value
  /\ ~ In sep (default [] timestamp)
  /\ if _std_mode self then
       line = frame K self tag timestamp value ++ checksum
       /\ ~ In sep checksum
     else
       timestamp = None
       /\ exists f3, line = frame K self tag timestamp value ++ [sep] ++ f3
          /\ (checksum = f3 /\ ~ In sep f3
              \/ checksum = [sep] /\ count_sep sep f3 = 1%nat).
Proof.
  unfold extract_fields, frame, field_separator.
  destruct (_std_mode self).
  - destruct (split _ line) as [|f1 [|f2 [|f3 [|f4 [|f5 fs]]]]] eqn:Hs;
      try discriminate; intros [= <- <- <- <-]; cbn zeta.
    + destruct (split_three _ _ _ _ _ Hs) as (-> & Ha & Hb & Hc).
      repeat split; try assumption; [intros [] |].
      same_list.
    + destruct (split_four _ _ _ _ _ _ Hs) as (-> & Ha & Hb & Hc & Hd).
      repeat split; try assumption.
      same_list.
  - destruct (split _ line) as [|f1 [|f2 [|f3 [|f4 [|f5 fs]]]]] eqn:Hs;
      try discriminate; intros [= <- <- <- <-]; cbn zeta.
    + destruct (split_three _ _ _ _ _ Hs) as (-> & Ha & Hb & Hc).
      repeat split; try assumption; [intros [] |].
      exists f3. split; [same_list |].
      left. split; [reflexivity | assumption].
    + destruct (split_four _ _ _ _ _ _ Hs) as (-> & Ha & Hb & Hc & Hd).
      repeat split; try assumption; [intros [] |].
      exists (f3 ++ MODE_HISTORIC_FIELD_SEPARATOR K :: f4).
      split; [same_list |].
      right. split; [reflexivity |].
      pose proof (split_length (MODE_HISTORIC_FIELD_SEPARATOR K)
                    (f3 ++ MODE_HISTORIC_FIELD_SEPARATOR K :: f4)) as Hl.
      rewrite (split_app_sep _ _ _ Hc), (split_no_sep _ _ Hd) in Hl.
      cbn [length] in Hl. lia.
Qed.




(** ** What the parser raises *)

(** X7: whenever [validate_checksum] raises an [InvalidChecksum], the
    line has a timestamp and a one-byte checksum, the exception carries
    the decoded tag, timestamp and value, [s1] is the sum of the rebuilt
    frame, [s1_truncated] is [s1 & 0x3F], [computed] is
    [s1_truncated + 0x20], [expected] is the checksum received, and
    [computed] differs from its byte value. *)
Theorem invalid_checksum_is_sound (K : const) (self : AsyncSerialReader)
    (tag : bytes) (timestamp : option bytes) (value checksum : bytes)
    (ic : InvalidChecksum.t) :
  validate_checksum K self tag timestamp value checksum
  = Raise (InvalidChecksumError ic) ->
  exists ts c,
    timestamp = Some ts /\ checksum = [c]
    /\ decode_ascii tag = Ok (InvalidChecksum.tag ic)
    /\ decode_ascii ts = Ok (InvalidChecksum.timestamp ic)
    /\ decode_ascii value = Ok (InvalidChecksum.value ic)
    /\ InvalidChecksum.s1 ic = byte_sum (frame K self tag timestamp value)
    /\ InvalidChecksum.s1_truncated ic = Z.land (InvalidChecksum.s1 ic) 0x3F
    /\ InvalidChecksum.computed ic = InvalidChecksum.s1_truncated ic + 0x20
    /\ InvalidChecksum.expected ic = checksum
    /\ InvalidChecksum.computed ic <> byte_val c.
Proof.
  unfold validate_checksum.
  destruct checksum as [|c [|c' rest]]; cbn; try discriminate.
  destruct (Z.eqb_spec
              (Z.land (byte_sum (frame K self tag timestamp value)) 63 + 32)
              (byte_val c)) as [Heq | Hne]; cbn; [discriminate |].
  unfold InvalidChecksum__init__.
  destruct (decode_ascii tag) as [tag'|] eqn:Ht; cbn.
  2:{ intros [= ->]. destruct (decode_ascii_raises _ _ Ht) as [Habs _].
      discriminate Habs. }
  destruct timestamp as [ts|]; cbn; [|discriminate].
  destruct (decode_ascii ts) as [ts'|] eqn:Hts; cbn.
  2:{ intros [= ->]. destruct (decode_ascii_raises _ _ Hts) as [Habs _].
      discriminate Habs. }
  destruct (decode_ascii value) as [value'|] eqn:Hv; cbn.
  2:{ intros [= ->]. destruct (decode_ascii_raises _ _ Hv) as [Habs _].
      discriminate Habs. }
  intros [= <-]. exists ts, c. cbn. repeat split; try reflexivity; assumption.
Qed.

Lemma validate_checksum_raises (K : const) (self : AsyncSerialReader)
    (tag : bytes) (timestamp : option bytes) (value checksum : bytes) (e : exn) :
  validate_checksum K self tag timestamp value checksum = Raise e ->
  e = TypeError \/ e = AttributeError \/ e = UnicodeDecodeError
  \/ exists ic, e = InvalidChecksumError ic.
Proof.
  unfold validate_checksum.
  destruct checksum as [|c [|c' rest]]; cbn;
    try (intros [= <-]; left; reflexivity).
  destruct (negb _); cbn; [|discriminate].
  unfold InvalidChecksum__init__.
  destruct (decode_ascii tag) as [tag'|e1] eqn:Ht; cbn.
  2:{ intros [= <-]. destruct (decode_ascii_raises _ _ Ht) as [-> _]. tauto. }
  destruct timestamp as [ts|]; cbn; [|intros [= <-]; tauto].
  destruct (decode_ascii ts) as [ts'|e2] eqn:Hts; cbn.
  2:{ intros [= <-]. destruct (decode_ascii_raises _ _ Hts) as [-> _]. tauto. }
  destruct (decode_ascii value) as [value'|e3] eqn:Hv; cbn.
  2:{ intros [= <-]. destruct (decode_ascii_raises _ _ Hv) as [-> _]. tauto. }
  intros [= <-]. eauto 6.
Qed.

Lemma parse_line_raise_facts (K : const) (raw : bytes)
    (self : AsyncSerialReader) (ex : exn) :
  res (parse_line K raw self) = Raise ex ->
  after (parse_line K raw self) = self
  /\ (ex = TypeError \/ ex = AttributeError \/ ex = UnicodeDecodeError)
  /\ Forall (fun a => exists m, a = Log DEBUG m) (trace (parse_line K raw self)).
Proof.
  destruct (_first_line self) eqn:Hfl.
  { rewrite (parse_line_first K raw self Hfl). discriminate. }
  destruct (extract_fields K (_std_mode self)
              (rstrip (FRAME_END K) (rstrip (LINE_END K) raw)))
    as [[[[tag timestamp] value] checksum]|] eqn:Hx.
  2:{ rewrite (parse_line_field_count K raw self Hfl Hx). discriminate. }
  assert (Hq1 : Forall (fun a => exists m, a = Log DEBUG m)
                  [Log DEBUG (MsgLineToParse raw)]).
  { repeat constructor; eauto. }
  assert (Hq2 : Forall (fun a => exists m, a = Log DEBUG m)
                  [Log DEBUG (MsgLineToParse raw); Log DEBUG MsgChecksumValid]).
  { repeat constructor; eauto. }
  destruct (validate_checksum K self tag timestamp value checksum)
    as [[] | e] eqn:Hv.
  - rewrite (parse_line_valid K raw self _ _ _ _ Hfl Hx Hv). cbn zeta.
    destruct (decode_ascii value) as [v|e] eqn:Hdv; cbn [res after trace].
    2:{ intros [= <-]. destruct (decode_ascii_raises _ _ Hdv) as [-> _]. tauto. }
    destruct (payload_timestamp timestamp) as [t|e] eqn:Hdt; cbn [res after trace].
    2:{ intros [= <-]. rewrite (payload_timestamp_raises _ _ Hdt). tauto. }
    destruct (decode_ascii tag) as [g|e] eqn:Hdg; cbn [res after trace];
      [discriminate |].
    intros [= <-]. destruct (decode_ascii_raises _ _ Hdg) as [-> _]. tauto.
  - rewrite (parse_line_invalid K raw self _ _ _ _ e Hfl Hx Hv).
    destruct (validate_checksum_raises K self _ _ _ _ e Hv)
      as [-> | [-> | [-> | [ic ->]]]]; cbn [res after trace];
      try discriminate; intros [= <-]; tauto.
Qed.

(** X8: when [parse_line] raises, the object is exactly as before the
    call, the exception is a [TypeError], an [AttributeError] or a
    [UnicodeDecodeError] (never an [InvalidChecksum]), and everything
    logged on the way is at debug level. *)
Theorem parse_line_raise_leaves_object (K : const) (raw : bytes)
    (self : AsyncSerialReader) (ex : exn) :
  res (parse_line K raw self) = Raise ex ->
  after (parse_line K raw self) = self
  /\ (ex = TypeError \/ ex = AttributeError \/ ex = UnicodeDecodeError)
  /\ Forall (fun a => exists m, a = Log DEBUG m) (trace (parse_line K raw self)).
Proof. exact (parse_line_raise_facts K raw self ex). Qed.

(** ** How the read loop ends *)

Lemma open_serial_ok (e : env) (self : AsyncSerialReader) :
  res (open_serial e self) = Ok tt.
Proof.
  unfold open_serial, deliver, stop_serial_read, _reset_state, deliver,
    stop_serial_read.
  unfold mbind, M_bind, mret, M_ret, get, modify, log, act, lift.
  destruct (stop_while_waiting e), (_writer self),
    (open_result e) as [[reader writer]|], (stop_while_sleeping e);
    reflexivity.
Qed.

Lemma turn_raise (K : const) (e : env) (self : AsyncSerialReader) (ex : exn) :
  res (read_serial_turn K e self) = Raise ex ->
  exists raw reader writer,
    _reader self = Some reader /\ _writer self = Some writer
    /\ readline_result e = Some raw
    /\ res (parse_line K raw self) = Raise ex
    /\ after (read_serial_turn K e self) = after (parse_line K raw self).
Proof.
  destruct (_reader self) as [reader|] eqn:Hr.
  - destruct (_writer self) as [writer|] eqn:Hw.
    + destruct (readline_result e) as [raw|] eqn:He.
      * destruct (stop_while_waiting e) as [event|] eqn:Hs.
        -- rewrite (turn_line_after_stop K e self _ _ _ _ Hr Hw He Hs).
           discriminate.
        -- rewrite (turn_line K e self _ _ _ Hr Hw He Hs).
           destruct (parse_line K raw self) as [[[]|ex'] self' t] eqn:Hp;
             cbn; [discriminate |].
           intros [= <-]. exists raw, reader, writer. rewrite Hp. cbn. tauto.
      * rewrite (turn_read_error K e self _ _ Hr Hw He). discriminate.
    + rewrite (turn_stopped K e self _ Hr Hw). discriminate.
  - unfold read_serial_turn, mbind, M_bind, get. rewrite Hr.
    pose proof (open_serial_ok e self) as Ho.
    destruct (open_serial e self) as [[[]|ex'] self' t]; cbn in Ho |- *;
      discriminate.
Qed.

(** X9: when [read_serial] ends with an exception, from whatever state
    and on whatever script, that exception is a [TypeError], an
    [AttributeError] or a [UnicodeDecodeError] (a [SerialException] never
    leaves the loop), and the object left behind still has its reader and
    writer: [is_connected()] stays truthy although the loop is over. *)
Theorem read_loop_dies_connected (K : const) (script : list env)
    (self : AsyncSerialReader) (ex : exn) :
  res (read_serial K script self) = Raise ex ->
  let dead := after (read_serial K script self) in
  (ex = TypeError \/ ex = AttributeError \/ ex = UnicodeDecodeError)
  /\ truthy (is_connected dead) = true
  /\ _first_line dead = false.
Proof.
  revert self. induction script as [|e script IH]; intros self.
  - discriminate.
  - rewrite read_serial_cons.
    destruct (read_serial_turn K e self) as [[[]|ex'] self1 t1] eqn:Ht.
    + intros Hres. specialize (IH self1).
      destruct (read_serial K script self1) as [r self2 t2].
      exact (IH Hres).
    + discriminate.
    + cbn. intros [= <-].
      assert (Hraise : res (read_serial_turn K e self) = Raise ex').
      { rewrite Ht. reflexivity. }
      destruct (turn_raise K e self ex' Hraise)
        as (raw & reader & writer & Hr & Hw & He & Hp & Ha).
      rewrite Ht in Ha. cbn in Ha. subst self1.
      destruct (parse_line_raise_facts K raw self ex' Hp)
        as (Hsame & Hex & _).
      rewrite Hsame. split; [exact Hex |].
      unfold is_connected. rewrite Hr, Hw. split; [reflexivity |].
      destruct (_first_line self) eqn:Hfl; [|reflexivity].
      rewrite (parse_line_first K raw self Hfl) in Hp. discriminate.
Qed.

Lemma read_loop_dies_connected_witness :
  let dead := after (read_serial tic [reads adco_bad_line; reads adco_line]
                       (connected false)) in
  truthy (is_connected dead) = true /\ _first_line dead = false.
Proof.
  exact (proj2 (read_loop_dies_connected tic
                  [reads adco_bad_line; reads adco_line] (connected false)
                  AttributeError eq_refl)).
Defined.

Lemma turn_paired (K : const) (e : env) (self : AsyncSerialReader) :
  paired self -> stop_while_waiting e = None ->
  paired (after (read_serial_turn K e self))
  /\ res (read_serial_turn K e self) <> Ok Break.
Proof.
  unfold paired. intros Hp Hs.
  destruct (_reader self) as [reader|] eqn:Hr;
    destruct (_writer self) as [writer|] eqn:Hw; try discriminate.
  - destruct (readline_result e) as [raw|] eqn:He.
    + rewrite (turn_line K e self _ _ _ Hr Hw He Hs).
      destruct (parse_line_frame K raw self) as (Er & Ew & _).
      destruct (parse_line K raw self) as [[[]|ex] self' t]; cbn in *;
        rewrite Er, Ew, Hr, Hw; split; [reflexivity | discriminate
                                        | reflexivity | discriminate].
    + rewrite (turn_read_error K e self _ _ Hr Hw He).
      split; [reflexivity | discriminate].
  - rewrite (turn_disconnected K e self Hr Hw).
    destruct (open_result e) as [[reader writer]|];
      split; try reflexivity; discriminate.
Qed.

(** X10: from a fresh object, as long as no stop event is delivered while
    the loop waits for the transport, [read_serial] never leaves through
    its [break]: neither failed opens, read errors nor rejected lines make
    it exit. *)
Theorem read_loop_exits_only_on_stop (K : const) (port : string)
    (std_mode : bool) (script : list env) :
  Forall (fun e => stop_while_waiting e = None) script ->
  res (read_serial K script (AsyncSerialReader__init__ port std_mode))
  <> Ok Exited.
Proof.
  assert (Hgen : forall self, paired self ->
            Forall (fun e => stop_while_waiting e = None) script ->
            res (read_serial K script self) <> Ok Exited).
  { induction script as [|e script IH]; intros self Hp Hall.
    - discriminate.
    - inversion Hall as [|? ? Hs Hrest]; subst.
      rewrite read_serial_cons.
      destruct (turn_paired K e self Hp Hs) as [Hp' Hnb].
      destruct (read_serial_turn K e self) as [[[]|ex] self1 t1];
        cbn in Hp', Hnb.
      + specialize (IH self1 Hp' Hrest).
        destruct (read_serial K script self1) as [r self2 t2]. exact IH.
      + contradiction.
      + discriminate. }
  apply Hgen. reflexivity.
Qed.

Lemma read_loop_exits_only_on_stop_witness :
  res (read_serial tic
         [{| open_result := Some (0%nat, 1%nat); readline_result := None;
             stop_while_waiting := None; stop_while_sleeping := None |};
          reads []; reads adsc_line;
          {| open_result := None; readline_result := None;
             stop_while_waiting := None;
             stop_while_sleeping := Some "homeassistant_stop" |}]
         (AsyncSerialReader__init__ "/dev/ttyUSB0" true))
  <> Ok Exited.
Proof.
  apply (read_loop_exits_only_on_stop tic "/dev/ttyUSB0" true).
  repeat constructor.
Defined.

(** X11: a stop event delivered while the loop waits in [readline], on
    an open transport: the writer is closed and cleared, the line that
    [readline] then returns is not parsed, and the next turn logs the exit
    and breaks.  Nothing else of the object changes and the rest of the
    script is never consulted. *)
Theorem stop_while_reading_exits (K : const) (self : AsyncSerialReader)
    (reader writer : handle) (e e' : env) (script : list env)
    (event : string) (raw : bytes) :
  _reader self = Some reader ->
  _writer self = Some writer ->
  stop_while_waiting e = Some event ->
  readline_result e = Some raw ->
  read_serial K (e :: e' :: script) self
  = Outcome (Ok Exited) (set_writer None self)
      [Readline reader; Log INFO (MsgClosing event); CloseWriter writer;
       Log DEBUG MsgExitingReadLoop].
Proof.
  intros Hr Hw Hs He.
  rewrite read_serial_cons, (turn_line_after_stop K e self _ _ _ _ Hr Hw He Hs).
  rewrite read_serial_cons.
  rewrite (turn_stopped K e' (set_writer None self) reader Hr eq_refl).
  reflexivity.
Qed.

Lemma stop_while_reading_exits_witness :
  let stopping := {| open_result := None;
                     readline_result := Some (bytes_of "ADSC");
                     stop_while_waiting := Some "homeassistant_stop";
                     stop_while_sleeping := None |} in
  let self := after (parse_line tic adsc_line (connected true)) in
  read_serial tic [stopping; reads adsc_line; reads adsc_line] self
  = Outcome (Ok Exited) (set_writer None self)
      [Readline 0%nat; Log INFO (MsgClosing "homeassistant_stop");
       CloseWriter 1%nat; Log DEBUG MsgExitingReadLoop].
Proof.
  exact (stop_while_reading_exits tic
           (after (parse_line tic adsc_line (connected true))) 0%nat 1%nat
           {| open_result := None; readline_result := Some (bytes_of "ADSC");
              stop_while_waiting := Some "homeassistant_stop";
              stop_while_sleeping := None |}
           (reads adsc_line) [reads adsc_line] "homeassistant_stop"
           (bytes_of "ADSC") eq_refl eq_refl eq_refl eq_refl).
Defined.

(** X12: a stop event delivered while the loop waits in [readline],
    when that [readline] then fails with a [SerialException]: the reset
    clears the reader as well, so the loop does not exit; after the sleep
    it opens the serial connection again and keeps running. *)
Theorem stop_then_read_error_reconnects (K : const) (self : AsyncSerialReader)
    (reader writer reader' writer' : handle) (e e' : env) (event : string) :
  _reader self = Some reader ->
  _writer self = Some writer ->
  stop_while_waiting e = Some event ->
  readline_result e = None ->
  open_result e' = Some (reader', writer') ->
  read_serial K [e; e'] self
  = Outcome (Ok Running)
      (set_transport (Some reader') (Some writer') (reset self))
      [Readline reader; Log INFO (MsgClosing event); CloseWriter writer;
       Log EXCEPTION (MsgReadError (_port self));
       Log DEBUG MsgResetState; Sleep 5;
       OpenSerialConnection (_port self)].
Proof.
  intros Hr Hw Hs He Ho.
  rewrite read_serial_cons, (turn_read_error K e self _ _ Hr Hw He), Hs.
  rewrite read_serial_cons.
  rewrite (turn_disconnected K e' (reset self) eq_refl eq_refl), Ho.
  reflexivity.
Qed.

Lemma stop_then_read_error_reconnects_witness :
  let failing := {| open_result := None; readline_result := None;
                    stop_while_waiting := Some "homeassistant_stop";
                    stop_while_sleeping := None |} in
  let answers := {| open_result := Some (2%nat, 3%nat); readline_result := None;
                    stop_while_waiting := None; stop_while_sleeping := None |} in
  let o := read_serial tic [failing; answers] (connected true) in
  res o = Ok Running /\ is_connected (after o) = Some 3%nat.
Proof.
  cbn zeta.
  rewrite (stop_then_read_error_reconnects tic (connected true)
             0%nat 1%nat 2%nat 3%nat
             {| open_result := None; readline_result := None;
                stop_while_waiting := Some "homeassistant_stop";
                stop_while_sleeping := None |}
             {| open_result := Some (2%nat, 3%nat); readline_result := None;
                stop_while_waiting := None; stop_while_sleeping := None |}
             "homeassistant_stop" eq_refl eq_refl eq_refl eq_refl eq_refl).
  split; reflexivity.
Defined.

(** ** Stop, lookups and the value table *)

(** X13: [stop_serial_read] never raises and changes nothing but
    [_writer], which it clears; a second call finds no writer and does and
    logs nothing, so the writer is closed once if there was one and never
    otherwise. *)
Theorem stop_serial_read_idempotent (self : AsyncSerialReader)
    (event event' : string) :
  let once := stop_serial_read event self in
  res once = Ok tt
  /\ after once = set_writer None self
  /\ stop_serial_read event' (after once) = Outcome (Ok tt) (after once) []
  /\ length (List.filter
               (fun a => match a with CloseWriter _ => true | _ => false end)
               (trace once)) = (if truthy (_writer self) then 1 else 0)%nat.
Proof.
  cbn zeta. rewrite stop_serial_read_cases.
  destruct self as [port std_mode reader [writer|] first_line values]; cbn;
    repeat split; rewrite stop_serial_read_cases; reflexivity.
Qed.

(** X14: at any point of any run where the object has no reader, or
    where the first line after the open is still awaited, [get_values]
    finds no entry for any tag: it returns [(None, None)], logs the
    [KeyError] as a warning and leaves the object unchanged. *)
Theorem get_values_absent_without_data (K : const) (port : string)
    (std_mode : bool) (script : list env) (tag : string) :
  let self :=
    after (read_serial K script (AsyncSerialReader__init__ port std_mode)) in
  _reader self = None \/ _first_line self = true ->
  get_values tag self
  = Outcome (Ok (PyNone, PyNone)) self [Log WARNING (MsgKeyError tag)].
Proof.
  intros self Hd.
  destruct (read_serial_consistent K script
              (AsyncSerialReader__init__ port std_mode)
              (init_consistent port std_mode)) as (Hw & Hf & Hv).
  fold self in Hw, Hf, Hv.
  assert (He : _values self = ∅).
  { destruct Hd as [Hr | Hfl]; [exact (Hv (Hf Hr)) | exact (Hv Hfl)]. }
  unfold get_values, mbind, M_bind, get, mret, M_ret, log, act. cbn.
  rewrite He, lookup_empty. reflexivity.
Qed.

Lemma get_values_absent_without_data_witness :
  let self := after (read_serial tic
                       [{| open_result := Some (0%nat, 1%nat);
                           readline_result := None;
                           stop_while_waiting := None;
                           stop_while_sleeping := None |};
                        reads []; reads adsc_line;
                        {| open_result := None; readline_result := None;
                           stop_while_waiting := None;
                           stop_while_sleeping := None |}]
                      (AsyncSerialReader__init__ "/dev/ttyUSB0" true)) in
  get_values "ADSC" self
  = Outcome (Ok (PyNone, PyNone)) self [Log WARNING (MsgKeyError "ADSC")].
Proof.
  apply (get_values_absent_without_data tic "/dev/ttyUSB0" true).
  left. reflexivity.
Defined.

Lemma parse_line_effect (K : const) (raw : bytes) (self : AsyncSerialReader) :
  _port (after (parse_line K raw self)) = _port self
  /\ _std_mode (after (parse_line K raw self)) = _std_mode self
  /\ _reader (after (parse_line K raw self)) = _reader self
  /\ _writer (after (parse_line K raw self)) = _writer self
  /\ (_values (after (parse_line K raw self)) = _values self
      \/ exists tag p,
           _values (after (parse_line K raw self))
           = <[tag := p]> (_values self)
           /\ res (parse_line K raw self) = Ok tt
           /\ In (Log DEBUG (MsgReadValues tag p))
                (trace (parse_line K raw self))).
Proof.
  destruct (_first_line self) eqn:Hfl.
  { rewrite (parse_line_first K raw self Hfl). cbn. tauto. }
  destruct (extract_fields K (_std_mode self)
              (rstrip (FRAME_END K) (rstrip (LINE_END K) raw)))
    as [[[[tag timestamp] value] checksum]|] eqn:Hx.
  2:{ rewrite (parse_line_field_count K raw self Hfl Hx). cbn. tauto. }
  destruct (validate_checksum K self tag timestamp value checksum)
    as [[] | e] eqn:Hv.
  2:{ rewrite (parse_line_invalid K raw self _ _ _ _ e Hfl Hx Hv).
      destruct e; cbn; tauto. }
  rewrite (parse_line_valid K raw self _ _ _ _ Hfl Hx Hv). cbn zeta.
  destruct (decode_ascii value) as [v|]; cbn; [|tauto].
  destruct (payload_timestamp timestamp) as [t|]; cbn; [|tauto].
  destruct (decode_ascii tag) as [g|]; cbn; [|tauto].
  repeat split. right. exists g, {| value := v; timestamp := t |}.
  repeat split. tauto.
Qed.

(** X15: [parse_line] never changes the port, the mode, the reader or the
    writer.  The value table is either unchanged or has exactly one entry
    written, in which case the call returned normally and logged that
    entry; no tag that was stored is ever removed. *)
Theorem parse_line_touches_one_entry (K : const) (raw : bytes)
    (self : AsyncSerialReader) :
  let o := parse_line K raw self in
  _port (after o) = _port self
  /\ _std_mode (after o) = _std_mode self
  /\ _reader (after o) = _reader self
  /\ _writer (after o) = _writer self
  /\ (_values (after o) = _values self
      \/ exists tag p,
           _values (after o) = <[tag := p]> (_values self)
           /\ res o = Ok tt
           /\ In (Log DEBUG (MsgReadValues tag p)) (trace o))
  /\ (forall tag, is_Some (_values self !! tag) ->
                  is_Some (_values (after o) !! tag)).
Proof.
  cbn zeta.
  destruct (parse_line_effect K raw self) as (Hp & Hm & Hr & Hw & Hv).
  repeat split; try assumption.
  intros tag Htag. destruct Hv as [-> | (tag' & p & -> & _)]; [exact Htag |].
  destruct (decide (tag' = tag)) as [-> | Hne].
  - rewrite lookup_insert_eq. eauto.
  - rewrite lookup_insert_ne by exact Hne. exact Htag.
Qed.

(** ** Line ends and blank lines *)

Lemma parse_line_by_stripped_line (K : const) (raw1 raw2 : bytes)
    (self : AsyncSerialReader) :
  rstrip (FRAME_END K) (rstrip (LINE_END K) raw1)
  = rstrip (FRAME_END K) (rstrip (LINE_END K) raw2) ->
  res (parse_line K raw1 self) = res (parse_line K raw2 self)
  /\ after (parse_line K raw1 self) = after (parse_line K raw2 self)
  /\ tail (trace (parse_line K raw1 self))
     = tail (trace (parse_line K raw2 self)).
Proof.
  intros Hs.
  destruct (_first_line self) eqn:Hfl.
  { rewrite !(parse_line_first K _ self Hfl). cbn. tauto. }
  destruct (extract_fields K (_std_mode self)
              (rstrip (FRAME_END K) (rstrip (LINE_END K) raw2)))
    as [[[[tag timestamp] value] checksum]|] eqn:Hx2.
  2:{ pose proof Hx2 as Hx1. rewrite <- Hs in Hx1.
      rewrite (parse_line_field_count K raw1 self Hfl Hx1).
      rewrite (parse_line_field_count K raw2 self Hfl Hx2).
      cbn. rewrite Hs. tauto. }
  pose proof Hx2 as Hx1. rewrite <- Hs in Hx1.
  destruct (validate_checksum K self tag timestamp value checksum)
    as [[] | e] eqn:Hv.
  2:{ rewrite (parse_line_invalid K raw1 self _ _ _ _ e Hfl Hx1 Hv).
      rewrite (parse_line_invalid K raw2 self _ _ _ _ e Hfl Hx2 Hv).
      destruct e; cbn; rewrite ?Hs; tauto. }
  rewrite (parse_line_valid K raw1 self _ _ _ _ Hfl Hx1 Hv).
  rewrite (parse_line_valid K raw2 self _ _ _ _ Hfl Hx2 Hv). cbn zeta.
  destruct (decode_ascii value); cbn; [|tauto].
  destruct (payload_timestamp timestamp); cbn; [|tauto].
  destruct (decode_ascii tag); cbn; tauto.
Qed.

(** X16: bytes of [LINE_END] appended to a line, in any number and
    order, change neither the result of [parse_line] nor the object it
    leaves, nor what it logs after the first message (which quotes the
    line as received). *)
Theorem parse_line_ignores_line_end (K : const) (raw ending : bytes)
    (self : AsyncSerialReader) :
  forallb (in_chars (LINE_END K)) ending = true ->
  res (parse_line K (raw ++ ending) self) = res (parse_line K raw self)
  /\ after (parse_line K (raw ++ ending) self) = after (parse_line K raw self)
  /\ tail (trace (parse_line K (raw ++ ending) self))
     = tail (trace (parse_line K raw self)).
Proof.
  intros He. apply parse_line_by_stripped_line.
  rewrite (rstrip_app_stripped _ _ _ He). reflexivity.
Qed.

Lemma parse_line_ignores_line_end_witness :
  after (parse_line tic (bytes_of "ADCO 012345678901 E" ++ [x0d; x0a; x0d; x0a])
           (connected false))
  = after (parse_line tic (bytes_of "ADCO 012345678901 E") (connected false)).
Proof.
  exact (proj1 (proj2
    (parse_line_ignores_line_end tic (bytes_of "ADCO 012345678901 E")
       [x0d; x0a; x0d; x0a] (connected false) eq_refl))).
Defined.

(** X17: an empty line, or one made only of [LINE_END] bytes, handed to
    the parser past the first-line skip: it is logged as a field-count
    error with one field, in either mode, and the object is unchanged. *)
Theorem blank_line_is_field_count_error (K : const) (raw : bytes)
    (self : AsyncSerialReader) :
  _first_line self = false ->
  forallb (in_chars (LINE_END K)) raw = true ->
  parse_line K raw self
  = Outcome (Ok tt) self
      [Log DEBUG (MsgLineToParse raw);
       Log ERROR (MsgFieldCount (_std_mode self) 1 [])].
Proof.
  intros Hfl Hall.
  pose proof (parse_line_field_count K raw self Hfl) as Hp. cbn zeta in Hp.
  rewrite (rstrip_all _ _ Hall) in Hp. cbn [rstrip split length] in Hp.
  apply Hp. unfold extract_fields. destruct (_std_mode self); reflexivity.
Qed.

Lemma blank_line_is_field_count_error_witness :
  parse_line tic [] (connected true)
  = Outcome (Ok tt) (connected true)
      [Log DEBUG (MsgLineToParse []); Log ERROR (MsgFieldCount true 1 [])]
  /\ parse_line tic [x0d; x0a] (connected false)
     = Outcome (Ok tt) (connected false)
         [Log DEBUG (MsgLineToParse [x0d; x0a]);
          Log ERROR (MsgFieldCount false 1 [])].
Proof.
  split.
  - exact (blank_line_is_field_count_error tic [] (connected true)
             eq_refl eq_refl).
  - exact (blank_line_is_field_count_error tic [x0d; x0a] (connected false)
             eq_refl eq_refl).
Defined.

(** ** Reachable objects *)

Lemma turn_keeps_config (K : const) (e : env) (self : AsyncSerialReader) :
  consistent self ->
  _port (after (read_serial_turn K e self)) = _port self
  /\ _std_mode (after (read_serial_turn K e self)) = _std_mode self.
Proof.
  intros (Hw & _).
  destruct (_reader self) as [reader|] eqn:Hr.
  - destruct (_writer self) as [writer|] eqn:Hwr.
    + destruct (readline_result e) as [raw|] eqn:He.
      * destruct (stop_while_waiting e) as [event|] eqn:Hs.
        -- rewrite (turn_line_after_stop K e self _ _ _ _ Hr Hwr He Hs).
           split; reflexivity.
        -- rewrite (turn_line K e self _ _ _ Hr Hwr He Hs).
           destruct (parse_line_effect K raw self) as (Hp & Hm & _).
           destruct (parse_line K raw self) as [[[]|ex] self' t];
             split; assumption.
      * rewrite (turn_read_error K e self _ _ Hr Hwr He). split; reflexivity.
    + rewrite (turn_stopped K e self _ Hr Hwr). split; reflexivity.
  - rewrite (turn_disconnected K e self Hr (Hw eq_refl)).
    destruct (open_result e) as [[reader writer]|]; split; reflexivity.
Qed.

Lemma read_serial_keeps_config (K : const) (script : list env)
    (self : AsyncSerialReader) :
  consistent self ->
  _port (after (read_serial K script self)) = _port self
  /\ _std_mode (after (read_serial K script self)) = _std_mode self.
Proof.
  revert self. induction script as [|e script IH]; intros self Hc.
  - split; reflexivity.
  - rewrite read_serial_cons.
    pose proof (turn_consistent K e self Hc) as Ht.
    pose proof (turn_keeps_config K e self Hc) as Hk.
    destruct (read_serial_turn K e self) as [[[]|ex] self1 t1];
      cbn in Ht, Hk; [|exact Hk | exact Hk].
    specialize (IH self1 Ht).
    destruct (read_serial K script self1) as [r self2 t2]. cbn in *.
    destruct IH as [-> ->]. exact Hk.
Qed.

(** X18: at any point of any run from a fresh object, a non-empty value
    table implies that there is a reader and that the first line is
    behind; a writer is never present without a reader; and the port and
    the mode are those given at construction. *)
Theorem stored_values_need_open_transport (K : const) (port : string)
    (std_mode : bool) (script : list env) :
  let self :=
    after (read_serial K script (AsyncSerialReader__init__ port std_mode)) in
  (_values self <> ∅ ->
   (exists reader, _reader self = Some reader) /\ _first_line self = false)
  /\ (forall writer, _writer self = Some writer ->
        exists reader, _reader self = Some reader)
  /\ _port self = port /\ _std_mode self = std_mode.
Proof.
  intros self.
  destruct (read_serial_consistent K script
              (AsyncSerialReader__init__ port std_mode)
              (init_consistent port std_mode)) as (Hw & Hf & Hv).
  destruct (read_serial_keeps_config K script
              (AsyncSerialReader__init__ port std_mode)
              (init_consistent port std_mode)) as (Hp & Hm).
  fold self in Hw, Hf, Hv, Hp, Hm.
  split; [|split; [|split; [exact Hp | exact Hm]]].
  - intros Hne.
    destruct (_reader self) as [reader|] eqn:Hr.
    + split; [eauto |].
      destruct (_first_line self); [|reflexivity].
      exfalso. exact (Hne (Hv eq_refl)).
    + exfalso. exact (Hne (Hv (Hf eq_refl))).
  - intros writer Hwr.
    destruct (_reader self) as [reader|]; [eauto |].
    rewrite (Hw eq_refl) in Hwr. discriminate.
Qed.

Lemma accepted_line_is_frame_then_checksum_witness :
  rstrip (FRAME_END tic) (rstrip (LINE_END tic) adsc_line)
  = frame tic (connected true) (bytes_of "ADSC") (Some (bytes_of "TS001"))
      (bytes_of "012345678901") ++ bytes_of "<".
Proof.
  exact (proj1 (proj2 (proj2 (proj2
    (accepted_line_is_frame_then_checksum tic (connected true)
       (rstrip (FRAME_END tic) (rstrip (LINE_END tic) adsc_line))
       (bytes_of "ADSC") (Some (bytes_of "TS001")) (bytes_of "012345678901")
       (bytes_of "<") eq_refl))))).
Defined.

Lemma invalid_checksum_is_sound_witness :
  exists ts c,
    Some (bytes_of "TS001") = Some ts /\ bytes_of "X" = [c]
    /\ decode_ascii (bytes_of "ADSC") = Ok "ADSC"
    /\ decode_ascii ts = Ok "TS001"
    /\ decode_ascii (bytes_of "012345678901") = Ok "012345678901"
    /\ 1244 = byte_sum (frame tic (connected true) (bytes_of "ADSC")
                          (Some (bytes_of "TS001")) (bytes_of "012345678901"))
    /\ 28 = Z.land 1244 0x3F
    /\ 60 = 28 + 0x20
    /\ bytes_of "X" = bytes_of "X"
    /\ 60 <> byte_val c.
Proof.
  exact (invalid_checksum_is_sound tic (connected true) (bytes_of "ADSC")
           (Some (bytes_of "TS001")) (bytes_of "012345678901") (bytes_of "X")
           (InvalidChecksum.mk "ADSC" "TS001" "012345678901" 1244 28 60
              (bytes_of "X")) eq_refl).
Defined.

Lemma parse_line_raise_leaves_object_witness :
  after (parse_line tic long_checksum_line (connected true)) = connected true.
Proof.
  exact (proj1 (parse_line_raise_leaves_object tic long_checksum_line
                  (connected true) TypeError eq_refl)).
Defined.

(** ** What the checksum can tell apart *)

Lemma byte_sum_permutation (l l' : bytes) :
  Permutation l l' -> byte_sum l = byte_sum l'.
Proof.
  induction 1 as [|b l l' _ IH|a b l|l l' l'' _ IH1 _ IH2];
    rewrite ?byte_sum_cons; lia.
Qed.

(** X19: a checksum field that passes validation is a single byte
    between 0x20 and 0x5F. *)
Theorem accepted_checksum_is_printable (K : const) (self : AsyncSerialReader)
    (tag : bytes) (timestamp : option bytes) (value checksum : bytes) :
  validate_checksum K self tag timestamp value checksum = Ok tt ->
  exists c, checksum = [c] /\ 0x20 <= byte_val c <= 0x5F.
Proof.
  intros (c & -> & Hc)%validate_checksum_ok_iff.
  exists c. split; [reflexivity |]. rewrite <- Hc. apply computed_range.
Qed.

Lemma accepted_checksum_is_printable_witness :
  exists c, bytes_of "E" = [c] /\ 0x20 <= byte_val c <= 0x5F.
Proof.
  exact (accepted_checksum_is_printable tic (connected false) (bytes_of "ADCO")
           None (bytes_of "012345678901") (bytes_of "E") eq_refl).
Defined.

(** X20: validation looks at the frame only through the sum of its bytes
    modulo 64: two frames whose sums agree modulo 64 pass or fail
    together against the same checksum.  In particular the sum, and so
    the verdict, is the same for any reordering of the bytes of a
    frame. *)
Theorem checksum_sees_only_sum_mod_64 (K : const) (self self' : AsyncSerialReader)
    (tag tag' : bytes) (timestamp timestamp' : option bytes)
    (value value' checksum : bytes) :
  let f := frame K self tag timestamp value in
  let f' := frame K self' tag' timestamp' value' in
  (byte_sum f mod 64 = byte_sum f' mod 64 ->
   (validate_checksum K self tag timestamp value checksum = Ok tt
    <-> validate_checksum K self' tag' timestamp' value' checksum = Ok tt))
  /\ (Permutation f f' -> byte_sum f = byte_sum f').
Proof.
  intros f f'. split; [|apply byte_sum_permutation].
  intros Hmod. rewrite !validate_checksum_ok_iff. fold f f'.
  change 0x3F with (Z.ones 6). rewrite !Z.land_ones by lia.
  change (2 ^ 6) with 64. rewrite Hmod. reflexivity.
Qed.

Lemma checksum_sees_only_sum_mod_64_witness :
  validate_checksum tic (connected false) (bytes_of "ADCO") None
    (bytes_of "012345678910") (bytes_of "E") = Ok tt.
Proof.
  apply (proj1 (checksum_sees_only_sum_mod_64 tic (connected false)
                  (connected false) (bytes_of "ADCO") (bytes_of "ADCO")
                  None None (bytes_of "012345678901") (bytes_of "012345678910")
                  (bytes_of "E"))); reflexivity.
Defined.

Lemma extraction_accepts_by_separator_count_witness :
  count_sep x09 (bytes_of "ADSC" ++ [x09] ++ bytes_of "012345678901") = 1%nat
  /\ parse_line tic short_line (connected true)
     = Outcome (Ok tt) (connected true)
         [Log DEBUG (MsgLineToParse short_line);
          Log ERROR
            (MsgFieldCount true 2
               (bytes_of "ADSC" ++ [x09] ++ bytes_of "012345678901"))].
Proof.
  split; [reflexivity |].
  apply (proj2 (extraction_accepts_by_separator_count tic (connected true)
                  short_line)); [reflexivity | |]; vm_compute; discriminate.
Defined.

Lemma stored_values_need_open_transport_witness :
  let self := after (read_serial tic
                       [{| open_result := Some (0%nat, 1%nat);
                           readline_result := None;
                           stop_while_waiting := None;
                           stop_while_sleeping := None |};
                        reads []; reads adsc_line]
                      (AsyncSerialReader__init__ "/dev/ttyUSB0" true)) in
  _values self <> ∅
  /\ (exists reader, _reader self = Some reader) /\ _first_line self = false.
Proof.
  cbn zeta.
  assert (Hne : _values (after (read_serial tic
                       [{| open_result := Some (0%nat, 1%nat);
                           readline_result := None;
                           stop_while_waiting := None;
                           stop_while_sleeping := None |};
                        reads []; reads adsc_line]
                      (AsyncSerialReader__init__ "/dev/ttyUSB0" true))) <> ∅).
  { intros Habs.
    assert (Hl : _values (after (read_serial tic
                       [{| open_result := Some (0%nat, 1%nat);
                           readline_result := None;
                           stop_while_waiting := None;
                           stop_while_sleeping := None |};
                        reads []; reads adsc_line]
                      (AsyncSerialReader__init__ "/dev/ttyUSB0" true)))
                 !! "ADSC"
                 = Some {| value := "012345678901"; timestamp := PyStr "TS001" |})
      by reflexivity.
    rewrite Habs, lookup_empty in Hl. discriminate. }
  split; [exact Hne |].
  exact (proj1 (stored_values_need_open_transport tic "/dev/ttyUSB0" true
                  [{| open_result := Some (0%nat, 1%nat);
                      readline_result := None;
                      stop_while_waiting := None;
                      stop_while_sleeping := None |};
                   reads []; reads adsc_line]) Hne).
Defined.
